(** * ocr_proto: the auto-capture trigger and the capture/recognize protocol

    Shallow embedding of [src/App.jsx], a single React component that
    captures stills from a camera and hands them to a Tesseract.js worker.

    - JavaScript numbers are IEEE-754 binary64 values: they are modelled
      by Rocq's primitive floats, so that every arithmetic step rounds as
      it does in the browser.  The contrast statistic is written once over
      an arithmetic interface and instantiated at the floats (what the
      code computes) and at the rationals (what the formula means).
    - React state is a record; the body of each [async] function is cut at
      its [await]s into the pieces that run without interruption, and the
      state updates of one piece are committed together.
    - The [useEffect] that drives the sampling loop is modelled with its
      closures: every run of the effect creates a [check] closure that
      keeps the [processing] and [worker] values of its render.

    The camera stream ([startCamera], [toggleFacing]) is modelled apart
    in [Camera], the buttons and the rendered values in [Controls]; the
    static markup and the [toFixed] label of the slider are left out. *)

From Stdlib Require Import ZArith List Bool String Lia.
From Stdlib Require Import QArith Qfield.
From Stdlib Require Import Floats.
Import ListNotations.

Set Warnings "-inexact-float".
Local Open Scope Z_scope.

(* ================================================================== *)
(** ** JavaScript numbers *)

Module Num.

(** The arithmetic used by the sampler.  [w_r], [w_g] and [w_b] are the
    literals [0.299], [0.587] and [0.114]. *)
Class Arith (num : Type) := {
  zero   : num;
  add    : num -> num -> num;
  sub    : num -> num -> num;
  mul    : num -> num -> num;
  div    : num -> num -> num;
  of_int : Z -> num;
  w_r    : num;
  w_g    : num;
  w_b    : num
}.

(** Conversion of a non-negative integer below 2^63 (a pixel channel, a
    frame dimension, a slider position) to a double. *)
Definition of_Z (z : Z) : float := PrimFloat.of_uint63 (Uint63.of_Z z).

(** What the browser computes. *)
#[export] Instance js : Arith float := {
  zero   := 0%float;
  add    := PrimFloat.add;
  sub    := PrimFloat.sub;
  mul    := PrimFloat.mul;
  div    := PrimFloat.div;
  of_int := of_Z;
  w_r    := 0.299%float;
  w_g    := 0.587%float;
  w_b    := 0.114%float
}.

(** The same expressions read over the rationals, without rounding. *)
#[export] Instance exact : Arith Q := {
  zero   := 0%Q;
  add    := Qplus;
  sub    := Qminus;
  mul    := Qmult;
  div    := Qdiv;
  of_int := inject_Z;
  w_r    := (299 # 1000)%Q;
  w_g    := (587 # 1000)%Q;
  w_b    := (114 # 1000)%Q
}.

(** [Math.floor] of a finite double, as an integer. NaN and the
    infinities, which no frame dimension produces, are sent to 0. *)
Definition floor (x : float) : Z :=
  match Prim2SF x with
  | S754_finite s m e =>
      let n := if s then Zneg m else Zpos m in
      if 0 <=? e then n * 2 ^ e else n / 2 ^ (- e)
  | _ => 0
  end.

(** JavaScript's [a > b]. *)
Definition gt (a b : float) : bool := PrimFloat.ltb b a.

End Num.

(* ================================================================== *)
(** ** Frame sampler: region of interest and contrast statistic
       (App.jsx, lines 116-144) *)

Module Sampler.
Import Num.

Section Statistic.
Context {num : Type} `{Arith num}.

(** [const gray = 0.299*r + 0.587*g + 0.114*b] *)
Definition gray (r g b : Z) : num :=
  add (add (mul w_r (of_int r)) (mul w_g (of_int g))) (mul w_b (of_int b)).

(** The loop [for (let i = 0; i < pixels.length; i += 4)] over the
    RGBA bytes of an [ImageData], threading [sum] and [sumSq].  The
    length of an [ImageData] buffer is a multiple of 4, so the loop
    always consumes whole pixels. *)
Fixpoint accumulate (pixels : list Z) (sum sumSq : num) : num * num :=
  match pixels with
  | r :: g :: b :: _ :: rest =>
      let y := gray r g b in
      accumulate rest (add sum y) (add sumSq (mul y y))
  | _ => (sum, sumSq)
  end.

(** [mean = sum / len; variance = (sumSq / len) - (mean*mean)] *)
Definition variance_of (pixels : list Z) (len : num) : num :=
  let '(sum, sumSq) := accumulate pixels zero zero in
  let mean := div sum len in
  sub (div sumSq len) (mul mean mean).
End Statistic.

(** The statistic as the browser computes it; [len = boxW * boxH]. *)
Definition variance (pixels : list Z) (boxW boxH : Z) : float :=
  variance_of pixels (PrimFloat.mul (of_Z boxW) (of_Z boxH)).




(** The centre box: 60% of the width and 20% of the height. *)
Definition boxW (w : Z) : Z := floor (PrimFloat.mul (of_Z w) 0.6).
Definition boxH (h : Z) : Z := floor (PrimFloat.mul (of_Z h) 0.2).
Definition boxX (w : Z) : Z :=
  floor (PrimFloat.div (PrimFloat.sub (of_Z w) (of_Z (boxW w))) 2).
Definition boxY (h : Z) : Z :=
  floor (PrimFloat.div (PrimFloat.sub (of_Z h) (of_Z (boxH h))) 2).

(** [const varianceThreshold = 500] *)
Definition varianceThreshold : float := 500%float.

(** The guard of line 144, [variance > varianceThreshold && !processing],
    with the cutoff as an argument. *)
Definition shouldTrigger (threshold variance : float) (processing : bool)
  : bool :=
  gt variance threshold && negb processing.

End Sampler.

(* ================================================================== *)
(** ** The component: state, collaborators and handlers
       (App.jsx, lines 13-103) *)

Module App.

(** Outcome of [worker.recognize(dataUrl)]: the promise resolves with
    [{ data: { text, confidence } }] or rejects. *)
Inductive RecognizeResult :=
| Recognized (text : string) (confidence : float)
| Rejected.

(** The Tesseract worker, an external collaborator.  The argument is
    [None] when [capturePhoto] returned [undefined]. *)
Record Worker := { recognize : option string -> RecognizeResult }.

(** What the handlers read from the [<video>] element: its ready state
    and dimensions, the RGBA bytes [drawImage] + [getImageData] yield
    for a rectangle (x, y, w, h), and the JPEG data URL that the frame
    encodes to with [canvas.toDataURL('image/jpeg', 0.92)]. *)
Record Video := {
  readyState  : Z;
  videoWidth  : Z;
  videoHeight : Z;
  imageData   : Z -> Z -> Z -> Z -> list Z;
  toDataURL   : string
}.

(** The [useState] cells of the component. *)
Record State := {
  ocrText                 : string;
  processing              : bool;
  autoCapture             : bool;
  worker                  : option Worker;
  lastCaptureDataUrl      : option string;
  autoConfidenceThreshold : float
}.

Definition initial : State := {|
  ocrText                 := "";
  processing              := false;
  autoCapture             := false;
  worker                  := None;
  lastCaptureDataUrl      := None;
  autoConfidenceThreshold := 0.6%float
|}.

(** The two [alert] messages of [runOcr]: "the OCR engine is getting
    ready, please wait" and "an error occurred during OCR". *)
Inductive Notice := EngineNotReady | OcrError.

(** Effects visible outside the state cells. *)
Inductive Output :=
| Snapshot (dataUrl : string)            (* canvas draw + toDataURL *)
| Recognize (dataUrl : option string)    (* worker.recognize(dataUrl) *)
| Alert (notice : Notice)
| ConsoleLog (confidence : float)
| ConsoleError.

Record World := { st : State; out : list Output }.

(** State-and-output monad of the handlers. *)
Definition M (A : Type) : Type := World -> A * World.
Definition ret {A} (a : A) : M A := fun w => (a, w).
Definition bind {A B} (m : M A) (k : A -> M B) : M B :=
  fun w => let '(a, w') := m w in k a w'.

Declare Scope app_scope.
Delimit Scope app_scope with app.
Notation "x <- m ;; k" := (bind m (fun x => k))
  (at level 61, m at next level, right associativity) : app_scope.
Notation "m ;; k" := (bind m (fun _ => k))
  (at level 61, right associativity) : app_scope.
Local Open Scope app_scope.

Definition update (f : State -> State) : M unit :=
  fun w => (tt, {| st := f (st w); out := out w |}).
Definition emit (o : Output) : M unit :=
  fun w => (tt, {| st := st w; out := out w ++ [o] |}).

(** Cell updates. *)
Definition set_ocrText (t : string) (s : State) : State :=
  {| ocrText := t; processing := processing s;
     autoCapture := autoCapture s; worker := worker s;
     lastCaptureDataUrl := lastCaptureDataUrl s;
     autoConfidenceThreshold := autoConfidenceThreshold s |}.
Definition set_processing (p : bool) (s : State) : State :=
  {| ocrText := ocrText s; processing := p;
     autoCapture := autoCapture s; worker := worker s;
     lastCaptureDataUrl := lastCaptureDataUrl s;
     autoConfidenceThreshold := autoConfidenceThreshold s |}.
Definition set_autoCapture (a : bool) (s : State) : State :=
  {| ocrText := ocrText s; processing := processing s;
     autoCapture := a; worker := worker s;
     lastCaptureDataUrl := lastCaptureDataUrl s;
     autoConfidenceThreshold := autoConfidenceThreshold s |}.
Definition set_worker (w : option Worker) (s : State) : State :=
  {| ocrText := ocrText s; processing := processing s;
     autoCapture := autoCapture s; worker := w;
     lastCaptureDataUrl := lastCaptureDataUrl s;
     autoConfidenceThreshold := autoConfidenceThreshold s |}.
Definition set_lastCaptureDataUrl (d : option string) (s : State) : State :=
  {| ocrText := ocrText s; processing := processing s;
     autoCapture := autoCapture s; worker := worker s;
     lastCaptureDataUrl := d;
     autoConfidenceThreshold := autoConfidenceThreshold s |}.
Definition set_autoConfidenceThreshold (t : float) (s : State) : State :=
  {| ocrText := ocrText s; processing := processing s;
     autoCapture := autoCapture s; worker := worker s;
     lastCaptureDataUrl := lastCaptureDataUrl s;
     autoConfidenceThreshold := t |}.

(** The setters returned by [useState]. *)
Definition setOcrText (t : string) : M unit := update (set_ocrText t).
Definition setProcessing (p : bool) : M unit := update (set_processing p).
Definition setAutoCapture (a : bool) : M unit := update (set_autoCapture a).
Definition setWorker (w : option Worker) : M unit := update (set_worker w).
Definition setLastCaptureDataUrl (d : option string) : M unit :=
  update (set_lastCaptureDataUrl d).
Definition setAutoConfidenceThreshold (t : float) : M unit :=
  update (set_autoConfidenceThreshold t).

(** [capturePhoto] (lines 68-80): returns [undefined] without a video
    element, otherwise draws the frame, stores and returns its URL. *)
Definition capturePhoto (videoRef : option Video) : M (option string) :=
  match videoRef with
  | None => ret None
  | Some video =>
      let dataUrl := toDataURL video in
      emit (Snapshot dataUrl) ;;
      setLastCaptureDataUrl (Some dataUrl) ;;
      ret (Some dataUrl)
  end.

(** [runOcr] up to its [await] (lines 84-88).  [worker] is the value the
    enclosing render closed over.  The result is the worker on which
    [recognize] is now pending, or [None] when [runOcr] has returned. *)
Definition runOcr_begin (worker : option Worker) (dataUrl : option string)
  : M (option Worker) :=
  match worker with
  | None => emit (Alert EngineNotReady) ;; ret None
  | Some w =>
      setProcessing true ;;
      setOcrText "" ;;
      emit (Recognize dataUrl) ;;
      ret (Some w)
  end.

(** [runOcr] from the settlement of [recognize] on (lines 88-96): the
    [try] continuation or the [catch], then the [finally]. *)
Definition runOcr_resume (r : RecognizeResult) : M unit :=
  match r with
  | Recognized text confidence =>
      setOcrText text ;; emit (ConsoleLog confidence)
  | Rejected =>
      emit ConsoleError ;; emit (Alert OcrError)
  end ;;
  setProcessing false.

(** [runOcr] run from start to end with nothing else in between. *)
Definition runOcr (worker : option Worker) (dataUrl : option string)
  : M unit :=
  pending <- runOcr_begin worker dataUrl ;;
  match pending with
  | None => ret tt
  | Some w => runOcr_resume (recognize w dataUrl)
  end.

(** [onCaptureClick] (lines 100-103), with the [worker] of the render
    the handler belongs to. *)
Definition onCaptureClick (videoRef : option Video) : M unit :=
  fun world =>
    (dataUrl <- capturePhoto videoRef ;;
     runOcr (worker (st world)) dataUrl) world.

(** The slider (line 217): positions 100..2000, stored divided by 1000. *)
Definition onSliderChange (value : Z) : M unit :=
  setAutoConfidenceThreshold (PrimFloat.div (Num.of_Z value) 1000).

(** How one call of [check] ends (lines 110-153). *)
Inductive Tick :=
| Reschedule                               (* rafId = requestAnimationFrame(check) *)
| Thrown                                   (* getImageData raised IndexSizeError *)
| Fired (dataUrl : option string) (pending : option Worker).
                                           (* captured; runOcr begun *)

(** One call of [check], up to the first real suspension.  [processing]
    and [worker] are the values of the render whose effect created this
    closure; [videoRef] is read when the call runs. *)
Definition check (processing : bool) (worker : option Worker)
           (videoRef : option Video) : M Tick :=
  match videoRef with
  | None => ret Reschedule
  | Some video =>
      if readyState video <? 2 then ret Reschedule else
      let w := videoWidth video in
      let h := videoHeight video in
      if (w =? 0) || (h =? 0) then ret Reschedule else
      let boxW := Sampler.boxW w in
      let boxH := Sampler.boxH h in
      let boxX := Sampler.boxX w in
      let boxY := Sampler.boxY h in
      if (boxW =? 0) || (boxH =? 0) then ret Thrown else
      let pixels := imageData video boxX boxY boxW boxH in
      let variance := Sampler.variance pixels boxW boxH in
      if Sampler.shouldTrigger Sampler.varianceThreshold variance processing
      then
        dataUrl <- capturePhoto videoRef ;;
        pending <- runOcr_begin worker dataUrl ;;
        ret (Fired dataUrl pending)
      else ret Reschedule
  end.

(** The text is empty whenever [processing] is set. *)
Definition text_empty_while_processing (s : State) : Prop :=
  processing s = true -> ocrText s = ""%string.

(** Result of a computation started from a state with no output yet. *)
Definition exec {A} (m : M A) (s : State) : World :=
  snd (m {| st := s; out := [] |}).

End App.

(* ================================================================== *)
(** ** The running page: effect instances, animation frames, timers and
       pending recognitions (App.jsx, lines 107-157) *)

Module Runtime.
Import App.
Local Open Scope app_scope.

(** Where a [check] closure stands. *)
Inductive Phase :=
| Pending                  (* a frame callback is registered under rafId *)
| InRecognize              (* suspended in [await runOcr(dataUrl)] *)
| Cooldown (until : Z)     (* suspended in the 1500 ms [setTimeout] *)
| Cancelled                (* its frame callback was cancelled *)
| Dead.                    (* [check] threw; nothing re-registers it *)

(** One run of the effect body with [autoCapture] set: the [check]
    closure with the [processing] and [worker] of its render. *)
Record Loop := {
  seen_processing : bool;
  seen_worker     : option Worker;
  phase           : Phase
}.

(** Who asked for a capture: the button or the closure of a loop. *)
Inductive Source := Manual | Auto (loop : nat).

(** A [worker.recognize] promise that has not settled yet. *)
Record Call := {
  owner  : Source;
  engine : Worker;
  image  : option string
}.

(** An output with the clock reading and the requester. *)
Record Entry := { at_ms : Z; source : Source; what : Output }.

Record Sys := {
  app    : State;
  now    : Z;                (* milliseconds since mount *)
  loops  : list Loop;        (* every closure created so far *)
  effect : option nat;       (* the loop whose cleanup has not run yet *)
  calls  : list Call;
  trace  : list Entry
}.

(** After mount: [autoCapture] is false, so the effect returned at once. *)
Definition mounted : Sys := {|
  app := initial; now := 0; loops := []; effect := None;
  calls := []; trace := []
|}.

Inductive Event :=
| WorkerReady (w : Worker)              (* the init effect calls setWorker *)
| CaptureClick (videoRef : option Video)
| ToggleAuto
| SliderChange (value : Z)
| ClearText
| Frame (videoRef : option Video)       (* animation frame callbacks run *)
| RecognizeSettles (k : nat)            (* the k-th pending call settles *)
| Elapse (ms : Z).

Fixpoint set_phase (i : nat) (p : Phase) (ls : list Loop) : list Loop :=
  match ls, i with
  | [], _ => []
  | l :: rest, O =>
      {| seen_processing := seen_processing l;
         seen_worker := seen_worker l; phase := p |} :: rest
  | l :: rest, S j => l :: set_phase j p rest
  end.

Fixpoint remove_nth {A} (k : nat) (xs : list A) : list A :=
  match xs, k with
  | [], _ => []
  | _ :: rest, O => rest
  | x :: rest, S j => x :: remove_nth j rest
  end.

Definition with_loops (ls : list Loop) (s : Sys) : Sys :=
  {| app := app s; now := now s; loops := ls; effect := effect s;
     calls := calls s; trace := trace s |}.

Definition with_calls (cs : list Call) (s : Sys) : Sys :=
  {| app := app s; now := now s; loops := loops s; effect := effect s;
     calls := cs; trace := trace s |}.

(** Run a handler piece on the page; its outputs enter the trace. *)
Definition perform {A} (src : Source) (m : M A) (s : Sys) : A * Sys :=
  let '(a, w) := m {| st := app s; out := [] |} in
  (a, {| app := st w; now := now s; loops := loops s; effect := effect s;
         calls := calls s;
         trace := trace s ++
                  map (fun o => {| at_ms := now s; source := src; what := o |})
                      (out w) |}).

Definition has_worker (s : State) : bool :=
  match worker s with Some _ => true | None => false end.

(** The dependency array [[autoCapture, processing, worker]].  The
    worker is set once, so only its presence can change. *)
Definition deps_changed (before after : State) : bool :=
  negb (Bool.eqb (autoCapture before) (autoCapture after))
  || negb (Bool.eqb (processing before) (processing after))
  || negb (Bool.eqb (has_worker before) (has_worker after)).

(** The cleanup [() => cancelAnimationFrame(rafId)] of the effect
    instance in place: it removes the frame callback registered under
    the closure's [rafId] if that callback has not run yet. *)
Definition cleanup (s : Sys) : Sys :=
  match effect s with
  | None => s
  | Some i =>
      match nth_error (loops s) i with
      | Some {| phase := Pending |} =>
          with_loops (set_phase i Cancelled (loops s)) s
      | _ => s
      end
  end.

(** The effect body: nothing without [autoCapture], else a new closure
    and [rafId = requestAnimationFrame(check)]. *)
Definition setup (s : Sys) : Sys :=
  if autoCapture (app s) then
    {| app := app s; now := now s;
       loops := loops s ++
                [{| seen_processing := processing (app s);
                    seen_worker := worker (app s);
                    phase := Pending |}];
       effect := Some (List.length (loops s));
       calls := calls s; trace := trace s |}
  else
    {| app := app s; now := now s; loops := loops s; effect := None;
       calls := calls s; trace := trace s |}.

(** Commit of a render: the effect is re-run when a dependency changed. *)
Definition commit (before : State) (s : Sys) : Sys :=
  if deps_changed before (app s) then setup (cleanup s) else s.

(** The frame callback of loop [i], and what the closure does next. *)
Definition tick (videoRef : option Video) (s : Sys) (i : nat) : Sys :=
  match nth_error (loops s) i with
  | Some {| seen_processing := p; seen_worker := w; phase := Pending |} =>
      let '(r, s1) := perform (Auto i) (check p w videoRef) s in
      match r with
      | Reschedule => s1
      | Thrown => with_loops (set_phase i Dead (loops s1)) s1
      | Fired dataUrl None =>
          with_loops (set_phase i (Cooldown (now s1 + 1500)) (loops s1)) s1
      | Fired dataUrl (Some e) =>
          with_calls (calls s1 ++
                      [{| owner := Auto i; engine := e; image := dataUrl |}])
            (with_loops (set_phase i InRecognize (loops s1)) s1)
      end
  | _ => s
  end.

(** Indices of the loops whose frame callback is registered. *)
Fixpoint pending_from (i : nat) (ls : list Loop) : list nat :=
  match ls with
  | [] => []
  | {| phase := Pending |} :: rest => i :: pending_from (S i) rest
  | _ :: rest => pending_from (S i) rest
  end.

(** The 1500 ms timer of a closure fires once the clock reaches its
    deadline; the closure then runs [rafId = requestAnimationFrame(check)]. *)
Definition wake (t : Z) (l : Loop) : Loop :=
  match phase l with
  | Cooldown until =>
      if until <=? t
      then {| seen_processing := seen_processing l;
              seen_worker := seen_worker l; phase := Pending |}
      else l
  | _ => l
  end.

(** One event of the page.  A frame runs the callbacks that were
    registered when it began, oldest closure first; the render that
    follows an event is committed once the event has been handled.  The
    init effect has an empty dependency array, so the worker arrives at
    most once. *)
Definition step (s : Sys) (e : Event) : Sys :=
  match e with
  | WorkerReady w =>
      match worker (app s) with
      | None => commit (app s) (snd (perform Manual (setWorker (Some w)) s))
      | Some _ => s
      end
  | CaptureClick videoRef =>
      let '(dataUrl, s1) := perform Manual (capturePhoto videoRef) s in
      let '(pending, s2) :=
        perform Manual (runOcr_begin (worker (app s)) dataUrl) s1 in
      let s3 :=
        match pending with
        | None => s2
        | Some e =>
            with_calls (calls s2 ++
                        [{| owner := Manual; engine := e; image := dataUrl |}])
                       s2
        end in
      commit (app s) s3
  | ToggleAuto =>
      commit (app s)
        (snd (perform Manual (setAutoCapture (negb (autoCapture (app s)))) s))
  | SliderChange value => snd (perform Manual (onSliderChange value) s)
  | ClearText => snd (perform Manual (setOcrText "") s)
  | Frame videoRef =>
      commit (app s)
        (fold_left (tick videoRef) (pending_from 0 (loops s)) s)
  | RecognizeSettles k =>
      match nth_error (calls s) k with
      | None => s
      | Some c =>
          let s1 :=
            snd (perform (owner c)
                   (runOcr_resume (recognize (engine c) (image c)))
                   (with_calls (remove_nth k (calls s)) s)) in
          let s2 :=
            match owner c with
            | Manual => s1
            | Auto i =>
                with_loops
                  (set_phase i (Cooldown (now s1 + 1500)) (loops s1)) s1
            end in
          commit (app s) s2
      end
  | Elapse ms =>
      if ms <? 0 then s else
      {| app := app s; now := now s + ms;
         loops := map (wake (now s + ms)) (loops s);
         effect := effect s; calls := calls s; trace := trace s |}
  end.

Definition run (s : Sys) (events : list Event) : Sys :=
  fold_left step events s.

(** The closure of the effect instance in place holds the current value
    of [processing]. *)
Definition closure_fresh (s : Sys) : Prop :=
  forall i, effect s = Some i ->
    nth_error (map seen_processing (loops s)) i = Some (processing (app s)).

(** Captures taken by the sampling loops: clock reading and loop. *)
Definition auto_captures (s : Sys) : list (Z * nat) :=
  flat_map (fun e =>
              match source e, what e with
              | Auto i, Snapshot _ => [(at_ms e, i)]
              | _, _ => []
              end) (trace s).

(** Recognitions started by the sampling loops. *)
Definition auto_recognitions (s : Sys) : list (Z * nat) :=
  flat_map (fun e =>
              match source e, what e with
              | Auto i, Recognize _ => [(at_ms e, i)]
              | _, _ => []
              end) (trace s).

End Runtime.

(* ================================================================== *)
(** ** The statistic in the words of its description *)

Module Statistics.
Import Num.


Definition total (xs : list Q) : Q := fold_right Qplus 0%Q xs.

Definition mean (xs : list Q) : Q :=
  (total xs / inject_Z (Z.of_nat (List.length xs)))%Q.


End Statistics.

(* ================================================================== *)
(** ** Concrete frames, engines and sessions *)

Module Scenario.
Import App Runtime.

(** An engine that reads every still as HELLO with confidence 0.9. *)
Definition hello : Worker :=
  {| recognize := fun _ => Recognized "HELLO" 0.9%float |}.

(** The same text with another confidence. *)
Definition hello_unsure : Worker :=
  {| recognize := fun _ => Recognized "HELLO" 0.5%float |}.

(** An engine whose recognition fails on one still only. *)
Definition picky : Worker :=
  {| recognize := fun d =>
       match d with
       | Some "data:image/jpeg;base64,BLUR"%string => Rejected
       | _ => Recognized "HELLO" 0.9%float
       end |}.

(** [n] opaque pixels alternating between two grey levels. *)
Fixpoint stripes (lo hi : Z) (n : nat) : list Z :=
  match n with
  | O => []
  | S k => lo :: lo :: lo :: 255 :: stripes hi lo k
  end.

(** A 10x10 feed showing a black and white checkerboard. *)
Definition page : Video := {|
  readyState := 4; videoWidth := 10; videoHeight := 10;
  imageData := fun _ _ w h => stripes 0 255 (Z.to_nat (w * h));
  toDataURL := "data:image/jpeg;base64,PAGE"
|}.

(** A 10x10 feed of low contrast: grey levels 100 and 160. *)
Definition faint : Video := {|
  readyState := 4; videoWidth := 10; videoHeight := 10;
  imageData := fun _ _ w h => stripes 100 160 (Z.to_nat (w * h));
  toDataURL := "data:image/jpeg;base64,FAINT"
|}.

(** A 10x10 feed of lower contrast still: grey levels 100 and 130. *)
Definition dim : Video := {|
  readyState := 4; videoWidth := 10; videoHeight := 10;
  imageData := fun _ _ w h => stripes 100 130 (Z.to_nat (w * h));
  toDataURL := "data:image/jpeg;base64,DIM"
|}.

(** A feed that the [picky] engine cannot read. *)
Definition blur : Video := {|
  readyState := 4; videoWidth := 10; videoHeight := 10;
  imageData := fun _ _ w h => stripes 0 255 (Z.to_nat (w * h));
  toDataURL := "data:image/jpeg;base64,BLUR"
|}.


(** Auto-capture is switched on in front of the checkerboard: the first
    frame triggers, the recognition takes one second. *)
Definition first_cycle : list Event :=
  [ WorkerReady hello; ToggleAuto; Frame (Some page);
    Elapse 16; Frame (Some page); Elapse 984; RecognizeSettles 0 ].

(** One display refresh later. *)
Definition second_capture : list Event :=
  first_cycle ++ [ Elapse 16; Frame (Some page) ].

(** 1.5 s after the first recognition settled; the second one, begun
    at 1016 ms, has not settled yet. *)
Definition during_second_recognition : list Event :=
  second_capture ++ [ Elapse 1484 ].

(** Auto-capture is switched off while the first recognition runs. *)
Definition switched_off : list Event :=
  [ WorkerReady hello; ToggleAuto; Frame (Some page);
    Elapse 500; ToggleAuto; Elapse 500; RecognizeSettles 0 ].

(** Two clicks in a row, on a still the [picky] engine reads and on one
    it cannot; the first recognition settles while the second is
    pending. *)
Definition overlapping_clicks : list Event :=
  [ WorkerReady picky; CaptureClick (Some page); CaptureClick (Some blur);
    RecognizeSettles 0 ].

(** One click on a still the [picky] engine cannot read. *)
Definition one_blurred_click : list Event :=
  [ WorkerReady picky; CaptureClick (Some blur) ].

(** The slider is set to an end of its range before auto-capture starts. *)
Definition slider_at_min : list Event :=
  [ WorkerReady hello; SliderChange 100; ToggleAuto ].
Definition slider_at_max : list Event :=
  [ WorkerReady hello; SliderChange 2000; ToggleAuto ].

End Scenario.

(* ================================================================== *)
(** ** Buttons and rendered values (App.jsx, lines 163-178, 209-233) *)

Module Controls.
Import App.

(** Truthiness of a JavaScript string: only the empty string is falsy. *)
Definition truthy (s : string) : bool :=
  match s with
  | EmptyString => false
  | String _ _ => true
  end.

(** The anchor element that [downloadImage] builds and clicks. *)
Record Anchor := { href : string; download : string }.

(** [downloadImage] (lines 163-169): nothing without a captured image. *)
Definition downloadImage (s : State) : option Anchor :=
  match lastCaptureDataUrl s with
  | None => None
  | Some url =>
      if truthy url
      then Some {| href := url; download := "capture.jpg" |}
      else None
  end.

(** The two [alert] messages of [copyTextToClipboard]. *)
Inductive CopyNotice := Copied | CopyFailed.

(** What [copyTextToClipboard] does: the argument of
    [navigator.clipboard.writeText] and the message shown. *)
Record Copy := { written : string; shown : CopyNotice }.

(** [copyTextToClipboard] (lines 171-178); [accepted] tells whether the
    promise of [writeText] resolves. *)
Definition copyTextToClipboard (s : State) (accepted : bool) : Copy :=
  {| written := ocrText s;
     shown := if accepted then Copied else CopyFailed |}.

(** Content of the result box (line 223):
    [processing ? busy : (ocrText || placeholder)]. *)
Inductive Box := Busy | Placeholder | Text (t : string).

Definition resultBox (s : State) : Box :=
  if processing s then Busy
  else if truthy (ocrText s) then Text (ocrText s)
  else Placeholder.

(** The [value] attribute of the slider (line 217). *)
Definition sliderValue (s : State) : float :=
  PrimFloat.mul (autoConfidenceThreshold s) 1000.

(** The slider position [value] comes back unchanged, or, at an odd
    position from 1001 to 1023, one unit in the last place lower. *)
Definition slider_round_trip (value : Z) : bool :=
  let back := sliderValue (st (exec (onSliderChange value) initial)) in
  if (1001 <=? value) && (value <=? 1023) && Z.odd value
  then Leibniz.eqb back (PrimFloat.next_down (Num.of_Z value))
  else Leibniz.eqb back (Num.of_Z value).

End Controls.

(* ================================================================== *)
(** ** Camera stream (App.jsx, lines 17, 22, 27-43, 59-65, 159-161) *)

Module Camera.

Inductive FacingMode := environment | user.

(** [toggleFacing] (lines 159-161). *)
Definition toggleFacing (prev : FacingMode) : FacingMode :=
  match prev with
  | environment => user
  | user => environment
  end.

(** The cells [stream] and [facingMode].  A media stream is named by its
    rank among the streams that [getUserMedia] has handed out. *)
Record Cells := { stream : option nat; facingMode : FacingMode }.

(** Where a call of [startCamera] is suspended. *)
Inductive Await :=
| GetUserMedia (mode : FacingMode)   (* await getUserMedia({video: {facingMode}}) *)
| Play (s : nat).                    (* await videoRef.current.play() *)

Record Device := {
  cells     : Cells;
  running   : list nat;              (* streams whose tracks are live *)
  requested : list FacingMode;       (* facing asked for, per stream *)
  srcObject : option nat;            (* videoRef.current.srcObject *)
  awaiting  : list Await;            (* calls of startCamera in flight *)
  closure   : option (option nat);   (* [stream] as seen by the cleanup in
                                        place; [None] once unmounted *)
  alerts    : nat                    (* camera-permission alerts shown *)
}.

(** [stream.getTracks().forEach(t => t.stop())] under [if (stream)]. *)
Definition stop (s : option nat) (live : list nat) : list nat :=
  match s with
  | None => live
  | Some id => filter (fun k => negb (Nat.eqb k id)) live
  end.

(** [startCamera] up to [await getUserMedia], with the [stream] and the
    [facingMode] of the render it belongs to (lines 28-35). *)
Definition startCamera_begin (seen : Cells) (d : Device) : Device :=
  {| cells := cells d;
     running := stop (stream seen) (running d);
     requested := requested d; srcObject := srcObject d;
     awaiting := awaiting d ++ [GetUserMedia (facingMode seen)];
     closure := closure d; alerts := alerts d |}.

(** The effect of lines 59-65, run for the render with cells [seen]: it
    calls [startCamera] and leaves a cleanup that holds [stream seen]. *)
Definition effect (seen : Cells) (d : Device) : Device :=
  let d' := startCamera_begin seen d in
  {| cells := cells d'; running := running d'; requested := requested d';
     srcObject := srcObject d'; awaiting := awaiting d';
     closure := Some (stream seen); alerts := alerts d' |}.

(** The cleanup of the effect instance in place. *)
Definition cleanup (d : Device) : Device :=
  match closure d with
  | None => d
  | Some seen =>
      {| cells := cells d; running := stop seen (running d);
         requested := requested d; srcObject := srcObject d;
         awaiting := awaiting d; closure := None; alerts := alerts d |}
  end.

(** After the first render: no stream yet, rear camera asked for. *)
Definition mounted : Device :=
  effect {| stream := None; facingMode := environment |}
         {| cells := {| stream := None; facingMode := environment |};
            running := []; requested := []; srcObject := None;
            awaiting := []; closure := None; alerts := 0 |}.

Inductive Event :=
| ToggleFacing        (* the camera-switch button *)
| Granted (k : nat)   (* getUserMedia of the k-th call resolves *)
| Denied (k : nat)    (* getUserMedia of the k-th call rejects *)
| Played (k : nat)    (* play() of the k-th call resolves *)
| PlayFailed (k : nat)
| Unmount.

Fixpoint replace_nth {A} (k : nat) (x : A) (xs : list A) : list A :=
  match xs, k with
  | [], _ => []
  | _ :: rest, O => x :: rest
  | y :: rest, S j => y :: replace_nth j x rest
  end.

Fixpoint drop_nth {A} (k : nat) (xs : list A) : list A :=
  match xs, k with
  | [], _ => []
  | _ :: rest, O => rest
  | y :: rest, S j => y :: drop_nth j rest
  end.

Definition step (d : Device) (e : Event) : Device :=
  match e with
  | ToggleFacing =>
      let now := {| stream := stream (cells d);
                    facingMode := toggleFacing (facingMode (cells d)) |} in
      let d1 := cleanup d in
      effect now
        {| cells := now; running := running d1; requested := requested d1;
           srcObject := srcObject d1; awaiting := awaiting d1;
           closure := closure d1; alerts := alerts d1 |}
  | Granted k =>
      match nth_error (awaiting d) k with
      | Some (GetUserMedia mode) =>
          let s := List.length (requested d) in
          {| cells := cells d; running := running d ++ [s];
             requested := requested d ++ [mode]; srcObject := Some s;
             awaiting := replace_nth k (Play s) (awaiting d);
             closure := closure d; alerts := alerts d |}
      | _ => d
      end
  | Denied k =>
      match nth_error (awaiting d) k with
      | Some (GetUserMedia _) =>
          {| cells := cells d; running := running d;
             requested := requested d; srcObject := srcObject d;
             awaiting := drop_nth k (awaiting d);
             closure := closure d; alerts := S (alerts d) |}
      | _ => d
      end
  | Played k =>
      match nth_error (awaiting d) k with
      | Some (Play s) =>
          {| cells := {| stream := Some s;
                         facingMode := facingMode (cells d) |};
             running := running d; requested := requested d;
             srcObject := srcObject d;
             awaiting := drop_nth k (awaiting d);
             closure := closure d; alerts := alerts d |}
      | _ => d
      end
  | PlayFailed k =>
      match nth_error (awaiting d) k with
      | Some (Play _) =>
          {| cells := cells d; running := running d;
             requested := requested d; srcObject := srcObject d;
             awaiting := drop_nth k (awaiting d);
             closure := closure d; alerts := S (alerts d) |}
      | _ => d
      end
  | Unmount => cleanup d
  end.

Definition run (d : Device) (events : list Event) : Device :=
  fold_left step events d.

(** A switch of camera that is left to finish: the button, then the
    grant, then the start of playback. *)
Definition switch : list Event := [ToggleFacing; Granted 0; Played 0].

Fixpoint switches (n : nat) : list Event :=
  match n with
  | O => []
  | S k => switch ++ switches k
  end.

(** One stream is live, it is the one in the cell and on the video
    element, it was asked for with the facing of the cell, nothing is in
    flight, and the cleanup in place holds a stream that is not live. *)
Definition settled (d : Device) : Prop :=
  exists s : nat,
    stream (cells d) = Some s /\
    running d = [s] /\
    srcObject d = Some s /\
    nth_error (requested d) s = Some (facingMode (cells d)) /\
    List.length (requested d) = S s /\
    awaiting d = [] /\
    exists seen, closure d = Some seen /\ seen <> Some s.

End Camera.

(* ================================================================== *)
(** ** What a session shows *)

Module Observe.
Import App Runtime.

(** The data URL of the last capture in a list of outputs, [start] when
    there is none. *)
Definition latest_snapshot (start : option string) (os : list Output)
  : option string :=
  fold_left (fun acc o =>
               match o with
               | Snapshot url => Some url
               | _ => acc
               end) os start.

(** The stored image is the last capture that was taken. *)
Definition capture_is_latest (s : Sys) : Prop :=
  lastCaptureDataUrl (app s) = latest_snapshot None (map what (trace s)).

Definition is_quiet (p : Phase) : bool :=
  match p with
  | Cancelled | Dead => true
  | _ => false
  end.

Definition is_manual (c : Call) : bool :=
  match owner c with
  | Manual => true
  | Auto _ => false
  end.

(** Auto-capture is off, no effect instance is in place, no closure can
    run again and no recognition started by a closure is pending. *)
Definition quiescent (s : Sys) : Prop :=
  autoCapture (app s) = false /\
  effect s = None /\
  forallb (fun l => is_quiet (phase l)) (loops s) = true /\
  forallb is_manual (calls s) = true.

(** No closure is suspended: the closure of the effect instance in
    place waits for a frame, the others cannot run again. *)
Definition nothing_suspended (s : Sys) : Prop :=
  forallb is_manual (calls s) = true /\
  forall i l, nth_error (loops s) i = Some l ->
    is_quiet (phase l) = true \/ (phase l = Pending /\ effect s = Some i).

Definition same_source (a b : Source) : bool :=
  match a, b with
  | Manual, Manual => true
  | Auto i, Auto j => Nat.eqb i j
  | _, _ => false
  end.

(** Entry [f] hands the still [url] of entry [e] on: same requester,
    same instant, and either a call of the engine on [url] or the
    engine-not-ready notice. *)
Definition hands_on (e f : Entry) (url : string) : bool :=
  same_source (source e) (source f)
  && (at_ms e =? at_ms f)
  && match what f with
     | Recognize (Some u) => String.eqb u url
     | Alert EngineNotReady => true
     | _ => false
     end.

(** Every capture of a trace is followed at once by its hand-over. *)
Fixpoint paired (es : list Entry) : bool :=
  match es with
  | [] => true
  | e :: rest =>
      match what e with
      | Snapshot url =>
          match rest with
          | f :: rest' => hands_on e f url && paired rest'
          | [] => false
          end
      | _ => paired rest
      end
  end.

(** [processing] is set only while a recognition is pending. *)
Definition busy_has_pending (s : Sys) : Prop :=
  processing (app s) = true -> calls s <> [].

Definition is_toggle (e : Event) : bool :=
  match e with
  | ToggleAuto => true
  | _ => false
  end.

(** Not a frame of a feed that can be sampled: no video element, not
    enough data yet, or a dimension still zero. *)
Definition not_ready (videoRef : option Video) : bool :=
  match videoRef with
  | None => true
  | Some video =>
      (readyState video <? 2)
      || (videoWidth video =? 0) || (videoHeight video =? 0)
  end.

(** Two captures of one closure are at least 1500 ms apart. *)
Definition spaced (captures : list (Z * nat)) : Prop :=
  forall l1 l2 l3 t1 t2 i,
    captures = l1 ++ (t1, i) :: l2 ++ (t2, i) :: l3 -> t1 + 1500 <= t2.

(** No capture lies in the future, and a closure that has captured and
    waits for a frame, or for its timer, is at least 1500 ms past its
    captures when it may run again. *)
Definition cooldown_kept (s : Sys) : Prop :=
  spaced (auto_captures s) /\
  forall t i, In (t, i) (auto_captures s) ->
    t <= now s /\
    exists l, nth_error (loops s) i = Some l /\
      (phase l = Pending -> t + 1500 <= now s) /\
      (forall until, phase l = Cooldown until -> t + 1500 <= until).

(** Two buffers with the same colours, pixel by pixel. *)
Inductive same_rgb : list Z -> list Z -> Prop :=
| same_rgb_short p q :
    (List.length p < 4)%nat -> (List.length q < 4)%nat -> same_rgb p q
| same_rgb_pixel r g b a a' p q :
    same_rgb p q -> same_rgb (r :: g :: b :: a :: p) (r :: g :: b :: a' :: q).

(** Texts of the recognitions that settle with success while [events]
    run from [s], oldest first. *)
Fixpoint settled_texts (s : Sys) (events : list Event) : list string :=
  match events with
  | [] => []
  | e :: rest =>
      match e with
      | RecognizeSettles k =>
          match nth_error (calls s) k with
          | Some c =>
              match recognize (engine c) (image c) with
              | Recognized text _ => [text]
              | Rejected => []
              end
          | None => []
          end
      | _ => []
      end ++ settled_texts (step s e) rest
  end.

(** [f] holds from 1 to [n]. *)
Fixpoint all_upto (n : nat) (f : Z -> bool) : bool :=
  match n with
  | O => true
  | S k => f (Z.of_nat n) && all_upto k f
  end.

(** The centre box of a frame dimension [n], computed in doubles, is
    what integer arithmetic gives. *)
Definition box_agrees (n : Z) : bool :=
  (Sampler.boxW n =? 3 * n / 5)
  && (Sampler.boxH n =? n / 5)
  && (Sampler.boxX n =? (n - 3 * n / 5) / 2)
  && (Sampler.boxY n =? (n - n / 5) / 2).

End Observe.

(* ================================================================== *)
(** * Properties *)

(** ** Comparison of doubles *)

Lemma SF_le_lt_trans (a b c : spec_float) :
  SFleb a b = true -> SFltb b c = true -> SFltb a c = true.
Proof.
  unfold SFleb, SFltb, SFcompare.
  destruct a as [sa|sa| |sa ma ea], b as [sb|sb| |sb mb eb],
           c as [sc|sc| |sc mc ec];
    try discriminate; try reflexivity;
    repeat match goal with s : bool |- _ => destruct s end;
    try discriminate; try reflexivity.
  all: rewrite ?Pos.compare_cont_spec; simpl Pos.switch_Eq.
  all: destruct (Z.compare_spec ea eb), (Z.compare_spec eb ec),
                (Z.compare_spec ea ec);
    try discriminate; try reflexivity; try lia.
  all: subst.
  all: destruct (Pos.compare_spec ma mb), (Pos.compare_spec mb mc),
                (Pos.compare_spec ma mc);
    simpl; try discriminate; try reflexivity; try lia.
Qed.

Lemma gt_weaken (t1 t2 v : float) :
  PrimFloat.leb t1 t2 = true -> Num.gt v t2 = true -> Num.gt v t1 = true.
Proof.
  unfold Num.gt. rewrite leb_spec, !ltb_spec. apply SF_le_lt_trans.
Qed.

(** ** C9: raising the cutoff *)

(** C9. For a fixed measured variance and a fixed [processing] flag, a
    frame that does not pass the guard [variance > threshold &&
    !processing] at a cutoff [t1] does not pass it at any cutoff
    [t2 >= t1] either. *)
Theorem threshold_monotone (t1 t2 variance : float) (processing : bool) :
  PrimFloat.leb t1 t2 = true ->
  Sampler.shouldTrigger t1 variance processing = false ->
  Sampler.shouldTrigger t2 variance processing = false.
Proof.
  intros Hle. unfold Sampler.shouldTrigger.
  destruct processing; simpl.
  - now rewrite !andb_false_r.
  - rewrite !andb_true_r. intros Hlow.
    destruct (Num.gt variance t2) eqn:Hhigh; [|reflexivity].
    rewrite (gt_weaken _ _ _ Hle Hhigh) in Hlow. discriminate.
Qed.

Lemma threshold_monotone_witness :
  PrimFloat.leb 500 2000 = true /\
  Sampler.shouldTrigger 500 300 false = false /\
  Sampler.shouldTrigger 2000 300 false = false.
Proof.
  split; [reflexivity|]. split; [reflexivity|].
  apply (threshold_monotone 500 2000 300 false); reflexivity.
Defined.

(** ** C7: the contrast statistic *)

Section Exact.
Import Num Sampler Statistics.
Local Open Scope Q_scope.










End Exact.




(** ** The handlers run on their own *)

Section Handlers.
Import App.

Lemma runOcr_not_ready (dataUrl : option string) (world : World) :
  runOcr None dataUrl world =
    (tt, {| st := st world; out := out world ++ [Alert EngineNotReady] |}).
Proof. reflexivity. Qed.

Lemma runOcr_unfold (w : Worker) (dataUrl : option string) (s : State) :
  exec (runOcr (Some w) dataUrl) s =
    match recognize w dataUrl with
    | Recognized text confidence =>
        {| st := set_processing false (set_ocrText text s);
           out := [Recognize dataUrl; ConsoleLog confidence] |}
    | Rejected =>
        {| st := set_processing false (set_ocrText "" s);
           out := [Recognize dataUrl; ConsoleError; Alert OcrError] |}
    end.
Proof.
  unfold exec, runOcr, runOcr_begin, runOcr_resume, bind. simpl.
  destruct (recognize w dataUrl); reflexivity.
Qed.

Lemma onCaptureClick_unfold (w : Worker) (video : Video) (s : State) :
  worker s = Some w ->
  exec (onCaptureClick (Some video)) s =
    match recognize w (Some (toDataURL video)) with
    | Recognized text confidence =>
        {| st := set_processing false
                   (set_ocrText text
                      (set_lastCaptureDataUrl (Some (toDataURL video)) s));
           out := [Snapshot (toDataURL video);
                   Recognize (Some (toDataURL video));
                   ConsoleLog confidence] |}
    | Rejected =>
        {| st := set_processing false
                   (set_ocrText ""
                      (set_lastCaptureDataUrl (Some (toDataURL video)) s));
           out := [Snapshot (toDataURL video);
                   Recognize (Some (toDataURL video));
                   ConsoleError; Alert OcrError] |}
    end.
Proof.
  intros Hw.
  unfold exec, onCaptureClick, capturePhoto, runOcr, runOcr_begin,
    runOcr_resume, bind. simpl. rewrite Hw. simpl.
  destruct (recognize w (Some (toDataURL video))); reflexivity.
Qed.

(** A call of [check] whose closure saw [processing = true] changes
    nothing and takes no capture. *)
Lemma check_while_processing (w : option Worker) (videoRef : option Video)
      (world : World) :
  snd (check true w videoRef world) = world /\
  forall d p, fst (check true w videoRef world) <> Fired d p.
Proof.
  unfold check, Sampler.shouldTrigger.
  destruct videoRef as [video|]; [|split; [reflexivity|discriminate]].
  destruct (readyState video <? 2); [split; [reflexivity|discriminate]|].
  destruct ((videoWidth video =? 0) || (videoHeight video =? 0));
    [split; [reflexivity|discriminate]|].
  destruct ((Sampler.boxW (videoWidth video) =? 0)
            || (Sampler.boxH (videoHeight video) =? 0));
    [split; [reflexivity|discriminate]|].
  rewrite andb_false_r. split; [reflexivity|discriminate].
Qed.

(** The outcome of [check] does not depend on the state cells: the
    slider value in particular is never read. *)
Lemma check_ignores_state (p : bool) (w : option Worker)
      (videoRef : option Video) (world1 world2 : World) :
  fst (check p w videoRef world1) = fst (check p w videoRef world2).
Proof.
  unfold check.
  destruct videoRef as [video|]; [|reflexivity].
  destruct (readyState video <? 2); [reflexivity|].
  destruct ((videoWidth video =? 0) || (videoHeight video =? 0));
    [reflexivity|].
  destruct ((Sampler.boxW (videoWidth video) =? 0)
            || (Sampler.boxH (videoHeight video) =? 0)); [reflexivity|].
  destruct (Sampler.shouldTrigger _ _ p); [|reflexivity].
  destruct w; reflexivity.
Qed.

End Handlers.

(** ** C4: requests before the engine is ready *)

(** C4 (as stated -- refuted). With no worker yet, a click on the capture
    button in front of a live feed replaces the last captured image, and
    so does a frame of the sampling loop. *)
Lemma capture_taken_before_engine_ready :
  App.worker App.initial = None /\
  App.lastCaptureDataUrl App.initial = None /\
  App.lastCaptureDataUrl
    (App.st (App.exec (App.onCaptureClick (Some Scenario.page)) App.initial))
    = Some "data:image/jpeg;base64,PAGE"%string /\
  App.lastCaptureDataUrl
    (Runtime.app (Runtime.run Runtime.mounted
                    [Runtime.ToggleAuto; Runtime.Frame (Some Scenario.page)]))
    = Some "data:image/jpeg;base64,PAGE"%string.
Proof. repeat split. Qed.

(** Committing a render touches the loops only. *)
Lemma commit_app (before : App.State) (sys : Runtime.Sys) :
  Runtime.app (Runtime.commit before sys) = Runtime.app sys.
Proof.
  unfold Runtime.commit, Runtime.setup, Runtime.cleanup.
  destruct (Runtime.deps_changed _ _); [|reflexivity].
  destruct (Runtime.effect sys) as [i|]; simpl.
  - destruct (nth_error (Runtime.loops sys) i) as [[? ? []]|]; simpl;
      destruct (App.autoCapture (Runtime.app sys)); reflexivity.
  - destruct (App.autoCapture (Runtime.app sys)); reflexivity.
Qed.

Lemma commit_calls (before : App.State) (sys : Runtime.Sys) :
  Runtime.calls (Runtime.commit before sys) = Runtime.calls sys.
Proof.
  unfold Runtime.commit, Runtime.setup, Runtime.cleanup.
  destruct (Runtime.deps_changed _ _); [|reflexivity].
  destruct (Runtime.effect sys) as [i|]; simpl.
  - destruct (nth_error (Runtime.loops sys) i) as [[? ? []]|]; simpl;
      destruct (App.autoCapture (Runtime.app sys)); reflexivity.
  - destruct (App.autoCapture (Runtime.app sys)); reflexivity.
Qed.

(** C4 (amended). A capture request made before the engine is ready shows
    the engine-not-ready notice, starts no recognition, leaves the text
    and the processing flag as they were and leaves nothing pending; the
    still is nevertheless taken first and becomes the last captured
    image.  This holds for the button and for the sampling loop. *)
Theorem engine_not_ready_request (sys : Runtime.Sys) (video : App.Video) :
  App.worker (Runtime.app sys) = None ->
  App.exec (App.onCaptureClick (Some video)) (Runtime.app sys) =
    {| App.st := App.set_lastCaptureDataUrl (Some (App.toDataURL video))
                   (Runtime.app sys);
       App.out := [App.Snapshot (App.toDataURL video);
                   App.Alert App.EngineNotReady] |}
  /\ Runtime.calls (Runtime.step sys (Runtime.CaptureClick (Some video)))
     = Runtime.calls sys
  /\ (forall p world,
        App.check p None (Some video) world = (App.Reschedule, world) \/
        App.check p None (Some video) world = (App.Thrown, world) \/
        App.check p None (Some video) world =
          (App.Fired (Some (App.toDataURL video)) None,
           {| App.st := App.set_lastCaptureDataUrl
                          (Some (App.toDataURL video)) (App.st world);
              App.out := App.out world ++
                         [App.Snapshot (App.toDataURL video);
                          App.Alert App.EngineNotReady] |})).
Proof.
  intros Hw. split; [|split].
  - unfold App.exec, App.onCaptureClick, App.capturePhoto, App.bind. simpl.
    rewrite Hw. reflexivity.
  - unfold Runtime.step, Runtime.perform. simpl. rewrite Hw. simpl.
    now rewrite commit_calls.
  - intros p world. unfold App.check.
    destruct (App.readyState video <? 2); [now left|].
    destruct ((App.videoWidth video =? 0) || (App.videoHeight video =? 0));
      [now left|].
    destruct ((Sampler.boxW (App.videoWidth video) =? 0)
              || (Sampler.boxH (App.videoHeight video) =? 0));
      [now right; left|].
    destruct (Sampler.shouldTrigger _ _ p); [|now left].
    right; right.
    unfold App.capturePhoto, App.runOcr_begin, App.bind, App.emit,
      App.setLastCaptureDataUrl, App.update, App.ret. simpl.
    now rewrite <- app_assoc.
Qed.

Lemma engine_not_ready_request_witness :
  App.worker (Runtime.app Runtime.mounted) = None /\
  App.exec (App.onCaptureClick (Some Scenario.page))
           (Runtime.app Runtime.mounted) =
    {| App.st := App.set_lastCaptureDataUrl
                   (Some (App.toDataURL Scenario.page))
                   (Runtime.app Runtime.mounted);
       App.out := [App.Snapshot (App.toDataURL Scenario.page);
                   App.Alert App.EngineNotReady] |}.
Proof.
  split; [reflexivity|].
  exact (proj1 (engine_not_ready_request Runtime.mounted Scenario.page
                  eq_refl)).
Defined.

(** ** C8: a recognition that succeeds *)

(** C8 (as stated -- refuted). Two engines return the same text with the
    confidences 0.9 and 0.5; the cells of the component are the same
    after either run, so the confidence is not part of the state. *)
Lemma confidence_not_stored :
  App.recognize Scenario.hello (Some "data:image/jpeg;base64,PAGE"%string)
    = App.Recognized "HELLO" 0.9%float /\
  App.recognize Scenario.hello_unsure
                (Some "data:image/jpeg;base64,PAGE"%string)
    = App.Recognized "HELLO" 0.5%float /\
  PrimFloat.eqb 0.9 0.5 = false /\
  App.st (App.exec (App.runOcr (Some Scenario.hello)
                      (Some "data:image/jpeg;base64,PAGE"%string))
                   App.initial)
  = App.st (App.exec (App.runOcr (Some Scenario.hello_unsure)
                        (Some "data:image/jpeg;base64,PAGE"%string))
                     App.initial).
Proof. repeat split. Qed.

(** C8 (amended). When the engine is ready and the recognition call of a
    capture request succeeds with a text and a confidence, the request
    ends with the text stored in [ocrText] and [processing] false; the
    confidence is written to the console and to no state cell. *)
Theorem recognition_success_stores_text
        (s : App.State) (w : App.Worker) (video : App.Video)
        (text : string) (confidence : float) :
  App.worker s = Some w ->
  App.recognize w (Some (App.toDataURL video))
    = App.Recognized text confidence ->
  App.exec (App.onCaptureClick (Some video)) s =
    {| App.st := App.set_processing false
                   (App.set_ocrText text
                      (App.set_lastCaptureDataUrl
                         (Some (App.toDataURL video)) s));
       App.out := [App.Snapshot (App.toDataURL video);
                   App.Recognize (Some (App.toDataURL video));
                   App.ConsoleLog confidence] |}.
Proof.
  intros Hw Hok. now rewrite (onCaptureClick_unfold w video s Hw), Hok.
Qed.

Lemma recognition_success_stores_text_witness :
  let s := App.set_worker (Some Scenario.hello) App.initial in
  let done := App.exec (App.onCaptureClick (Some Scenario.page)) s in
  App.ocrText (App.st done) = "HELLO"%string /\
  App.processing (App.st done) = false /\
  App.out done = [App.Snapshot "data:image/jpeg;base64,PAGE";
                  App.Recognize (Some "data:image/jpeg;base64,PAGE"%string);
                  App.ConsoleLog 0.9%float].
Proof.
  cbv zeta.
  rewrite (recognition_success_stores_text
             (App.set_worker (Some Scenario.hello) App.initial)
             Scenario.hello Scenario.page "HELLO" 0.9%float
             eq_refl eq_refl).
  repeat split.
Defined.

(** ** The text is empty while [processing] is set *)

Section Cleared.
Import App Runtime.

Lemma capturePhoto_keeps_text_empty (videoRef : option Video) (world : World) :
  text_empty_while_processing (st world) ->
  text_empty_while_processing (st (snd (capturePhoto videoRef world))).
Proof. destruct videoRef; intros H; exact H. Qed.

Lemma runOcr_begin_keeps_text_empty
      (w : option Worker) (dataUrl : option string) (world : World) :
  text_empty_while_processing (st world) ->
  text_empty_while_processing (st (snd (runOcr_begin w dataUrl world))).
Proof.
  destruct w; intros H; [|exact H]. intros _. reflexivity.
Qed.

Lemma runOcr_resume_keeps_text_empty (r : RecognizeResult) (world : World) :
  text_empty_while_processing (st (snd (runOcr_resume r world))).
Proof. destruct r; intros H; discriminate H. Qed.

Lemma check_keeps_text_empty
      (p : bool) (w : option Worker) (videoRef : option Video) (world : World) :
  text_empty_while_processing (st world) ->
  text_empty_while_processing (st (snd (check p w videoRef world))).
Proof.
  intros H. unfold check.
  destruct videoRef as [video|]; [|exact H].
  destruct (readyState video <? 2); [exact H|].
  destruct ((videoWidth video =? 0) || (videoHeight video =? 0)); [exact H|].
  destruct ((Sampler.boxW (videoWidth video) =? 0)
            || (Sampler.boxH (videoHeight video) =? 0)); [exact H|].
  destruct (Sampler.shouldTrigger _ _ p); [|exact H].
  destruct w; [intros _; reflexivity | exact H].
Qed.

Lemma perform_app {A} (src : Source) (m : M A) (sys : Sys) :
  app (snd (perform src m sys)) = st (snd (m {| st := app sys; out := [] |})).
Proof.
  unfold perform. destruct (m _) as [a w]. reflexivity.
Qed.

Lemma tick_keeps_text_empty (videoRef : option Video) (sys : Sys) (i : nat) :
  text_empty_while_processing (app sys) ->
  text_empty_while_processing (app (tick videoRef sys i)).
Proof.
  intros H. unfold tick.
  destruct (nth_error (loops sys) i) as [[p w []]|]; try exact H.
  pose proof (perform_app (Auto i) (check p w videoRef) sys) as E.
  destruct (perform (Auto i) (check p w videoRef) sys) as [r s1].
  simpl in E.
  assert (H1 : text_empty_while_processing (app s1)).
  { rewrite E. now apply check_keeps_text_empty. }
  destruct r as [| |d [e|]]; exact H1.
Qed.

Lemma frame_keeps_text_empty (videoRef : option Video) (ids : list nat) :
  forall sys, text_empty_while_processing (app sys) ->
  text_empty_while_processing (app (fold_left (tick videoRef) ids sys)).
Proof.
  induction ids as [|i ids IH]; intros sys H; [exact H|].
  simpl. apply IH. now apply tick_keeps_text_empty.
Qed.

Lemma step_keeps_text_empty (sys : Sys) (e : Event) :
  text_empty_while_processing (app sys) ->
  text_empty_while_processing (app (step sys e)).
Proof.
  intros H. destruct e as [w|videoRef| |value| |videoRef|k|ms];
    unfold step; cbv beta iota.
  - destruct (worker (app sys)); [exact H|].
    rewrite commit_app, perform_app. exact H.
  - pose proof (perform_app Manual (capturePhoto videoRef) sys) as E1.
    destruct (perform Manual (capturePhoto videoRef) sys) as [d s1].
    simpl in E1.
    pose proof (perform_app Manual (runOcr_begin (worker (app sys)) d) s1)
      as E2.
    destruct (perform Manual (runOcr_begin (worker (app sys)) d) s1)
      as [pending s2].
    simpl in E2. rewrite commit_app.
    assert (H2 : text_empty_while_processing (app s2)).
    { rewrite E2. apply runOcr_begin_keeps_text_empty.
      change (text_empty_while_processing (app s1)).
      rewrite E1. now apply capturePhoto_keeps_text_empty. }
    destruct pending; exact H2.
  - rewrite commit_app, perform_app. exact H.
  - rewrite perform_app. exact H.
  - rewrite perform_app. intros _. reflexivity.
  - rewrite commit_app. now apply frame_keeps_text_empty.
  - destruct (nth_error (calls sys) k) as [c|]; [|exact H].
    rewrite commit_app.
    assert (H1 : text_empty_while_processing
                   (app (snd (perform (owner c)
                                (runOcr_resume (recognize (engine c) (image c)))
                                (with_calls (remove_nth k (calls sys)) sys))))).
    { rewrite perform_app. apply runOcr_resume_keeps_text_empty. }
    destruct (owner c); exact H1.
  - destruct (ms <? 0); exact H.
Qed.

Lemma run_keeps_text_empty (events : list Event) :
  forall sys, text_empty_while_processing (app sys) ->
  text_empty_while_processing (app (run sys events)).
Proof.
  induction events as [|e events IH]; intros sys H; [exact H|].
  simpl. apply IH. now apply step_keeps_text_empty.
Qed.

End Cleared.

(** ** The closure of the effect instance in place is never stale *)

Section Fresh.
Import App Runtime.

Lemma seen_set_phase (i : nat) (p : Phase) (ls : list Loop) :
  map seen_processing (set_phase i p ls) = map seen_processing ls.
Proof.
  revert i. induction ls as [|l ls IH]; intros [|i]; simpl;
    try reflexivity. now rewrite IH.
Qed.

Lemma seen_wake (t : Z) (ls : list Loop) :
  map seen_processing (map (wake t) ls) = map seen_processing ls.
Proof.
  rewrite map_map. apply map_ext. intros l. unfold wake.
  destruct (phase l); try reflexivity.
  destruct (_ <=? _); reflexivity.
Qed.

Lemma perform_frame {A} (src : Source) (m : M A) (sys : Sys) :
  loops (snd (perform src m sys)) = loops sys /\
  effect (snd (perform src m sys)) = effect sys /\
  calls (snd (perform src m sys)) = calls sys /\
  now (snd (perform src m sys)) = now sys.
Proof.
  unfold perform. destruct (m _) as [a w]. repeat split.
Qed.

Lemma tick_frame (videoRef : option Video) (sys : Sys) (i : nat) :
  map seen_processing (loops (tick videoRef sys i))
    = map seen_processing (loops sys) /\
  effect (tick videoRef sys i) = effect sys.
Proof.
  unfold tick.
  destruct (nth_error (loops sys) i) as [[p w []]|]; try (split; reflexivity).
  pose proof (perform_frame (Auto i) (check p w videoRef) sys)
    as (Hl & He & _ & _).
  destruct (perform (Auto i) (check p w videoRef) sys) as [r s1].
  simpl in Hl, He.
  destruct r as [| |d [e|]]; simpl; rewrite ?seen_set_phase, Hl, He;
    split; reflexivity.
Qed.

Lemma frame_frame (videoRef : option Video) (ids : list nat) :
  forall sys,
    map seen_processing (loops (fold_left (tick videoRef) ids sys))
      = map seen_processing (loops sys) /\
    effect (fold_left (tick videoRef) ids sys) = effect sys.
Proof.
  induction ids as [|i ids IH]; intros sys; [split; reflexivity|].
  simpl. destruct (IH (tick videoRef sys i)) as [Hl He].
  destruct (tick_frame videoRef sys i) as [Hl' He'].
  split; congruence.
Qed.

Lemma commit_fresh (sys mid : Sys) :
  closure_fresh sys ->
  map seen_processing (loops mid) = map seen_processing (loops sys) ->
  effect mid = effect sys ->
  closure_fresh (commit (app sys) mid).
Proof.
  intros Hfresh Hl He. unfold commit.
  destruct (deps_changed (app sys) (app mid)) eqn:Hdeps.
  - unfold setup. intros i.
    destruct (autoCapture (app (cleanup mid))) eqn:Hauto; simpl;
      [|discriminate].
    intros [= <-]. rewrite map_app, nth_error_app2, length_map, Nat.sub_diag
      by (rewrite length_map; apply Nat.le_refl).
    reflexivity.
  - unfold deps_changed in Hdeps.
    apply orb_false_elim in Hdeps as [Hdeps _].
    apply orb_false_elim in Hdeps as [_ Hp].
    apply negb_false_iff, eqb_prop in Hp.
    intros i Hi. rewrite Hl, <- Hp. apply Hfresh. congruence.
Qed.

Lemma step_fresh (sys : Sys) (e : Event) :
  closure_fresh sys -> closure_fresh (step sys e).
Proof.
  intros H. destruct e as [w|videoRef| |value| |videoRef|k|ms];
    unfold step; cbv beta iota.
  - destruct (worker (app sys)); [exact H|].
    pose proof (perform_frame Manual (setWorker (Some w)) sys)
      as (Hl & He & _ & _).
    apply commit_fresh; [exact H | now rewrite Hl | exact He].
  - pose proof (perform_frame Manual (capturePhoto videoRef) sys)
      as (Hl1 & He1 & _ & _).
    destruct (perform Manual (capturePhoto videoRef) sys) as [d s1].
    pose proof (perform_frame Manual (runOcr_begin (worker (app sys)) d) s1)
      as (Hl2 & He2 & _ & _).
    destruct (perform Manual (runOcr_begin (worker (app sys)) d) s1)
      as [pending s2].
    simpl in Hl1, He1, Hl2, He2.
    apply commit_fresh; [exact H | |];
      destruct pending; simpl; congruence.
  - pose proof (perform_frame Manual
                  (setAutoCapture (negb (autoCapture (app sys)))) sys)
      as (Hl & He & _ & _).
    apply commit_fresh; [exact H | now rewrite Hl | exact He].
  - pose proof (perform_frame Manual (onSliderChange value) sys)
      as (Hl & He & _ & _).
    intros i Hi. rewrite Hl, perform_app. apply H. congruence.
  - pose proof (perform_frame Manual (setOcrText "") sys)
      as (Hl & He & _ & _).
    intros i Hi. rewrite Hl, perform_app. apply H. congruence.
  - destruct (frame_frame videoRef (pending_from 0 (loops sys)) sys)
      as [Hl He].
    apply commit_fresh; assumption.
  - destruct (nth_error (calls sys) k) as [c|]; [|exact H].
    pose proof (perform_frame (owner c)
                  (runOcr_resume (recognize (engine c) (image c)))
                  (with_calls (remove_nth k (calls sys)) sys))
      as (Hl & He & _ & _).
    simpl in Hl, He.
    apply commit_fresh; [exact H | |];
      destruct (owner c); simpl; rewrite ?seen_set_phase; congruence.
  - destruct (ms <? 0); [exact H|].
    intros i Hi. simpl in *. rewrite seen_wake. now apply H.
Qed.

Lemma run_fresh (events : list Event) :
  forall sys, closure_fresh sys -> closure_fresh (run sys events).
Proof.
  induction events as [|e events IH]; intros sys H; [exact H|].
  simpl. apply IH. now apply step_fresh.
Qed.

(** In every reachable state, the frame callback of the closure that
    belongs to the effect instance in place takes no capture and starts
    no recognition while [processing] is set: the guard works for the
    closure React would cancel, and fails only for closures that
    outlived their effect. *)
Lemma live_closure_respects_processing
      (events : list Event) (videoRef : option Video) (i : nat) :
  let sys := run mounted events in
  effect sys = Some i ->
  processing (app sys) = true ->
  app (tick videoRef sys i) = app sys /\
  trace (tick videoRef sys i) = trace sys /\
  calls (tick videoRef sys i) = calls sys.
Proof.
  intros sys Hi Hp.
  assert (Hfresh : closure_fresh sys).
  { apply run_fresh. intros j Hj. discriminate Hj. }
  specialize (Hfresh i Hi). rewrite Hp in Hfresh.
  unfold tick.
  destruct (nth_error (loops sys) i) as [[p w ph]|] eqn:Hnth;
    [|repeat split; reflexivity].
  rewrite nth_error_map, Hnth in Hfresh. simpl in Hfresh.
  injection Hfresh as ->.
  destruct ph; try (repeat split; reflexivity).
  unfold perform.
  destruct (check_while_processing w videoRef {| st := app sys; out := [] |})
    as [Hworld Hfire].
  destruct (check true w videoRef {| st := app sys; out := [] |})
    as [r world]. simpl in Hworld, Hfire. subst world.
  destruct r as [| |d pend]; simpl; rewrite ?app_nil_r;
    try (repeat split; reflexivity).
  exfalso. exact (Hfire d pend eq_refl).
Qed.

End Fresh.

(** ** C1, C2, C6: the sampling loops of a session *)

(** C2 (evaluation at the failing session). Auto-capture runs in front of
    a checkerboard with a ready engine. The first frame captures at 0 ms
    and its recognition settles at 1000 ms: [processing] falls back to
    false, the effect is re-run, and the new closure captures on the next
    frame, at 1016 ms, inside the 1.5 s that the first closure spends in
    its pause (until 2500 ms). *)
Theorem cooldown_bypassed_by_effect_rerun :
  let settled := Runtime.run Runtime.mounted Scenario.first_cycle in
  let later := Runtime.run Runtime.mounted Scenario.second_capture in
  Runtime.now settled = 1000 /\
  App.processing (Runtime.app settled) = false /\
  Runtime.calls settled = [] /\
  Runtime.auto_captures settled = [(0, 0%nat)] /\
  map Runtime.phase (Runtime.loops settled)
    = [Runtime.Cooldown 2500; Runtime.Cancelled; Runtime.Pending] /\
  Runtime.now later = 1016 /\
  Runtime.auto_captures later = [(0, 0%nat); (1016, 2%nat)].
Proof. vm_compute. repeat split. Qed.

(** C1 (evaluation at the failing session). At 2500 ms the recognition
    begun at 1016 ms is still pending and [processing] is true. The first
    closure, whose pause has ended, still holds [processing = false]; on
    the next frame it takes a capture and starts a second recognition
    beside the pending one. *)
Theorem single_flight_broken_by_stale_closure :
  let busy := Runtime.run Runtime.mounted Scenario.during_second_recognition in
  let after := Runtime.step busy (Runtime.Frame (Some Scenario.page)) in
  Runtime.now busy = 2500 /\
  App.processing (Runtime.app busy) = true /\
  List.length (Runtime.calls busy) = 1%nat /\
  map (fun l => (Runtime.seen_processing l, Runtime.phase l))
      (Runtime.loops busy)
    = [(false, Runtime.Pending); (true, Runtime.Cancelled);
       (false, Runtime.InRecognize); (true, Runtime.Pending)] /\
  Runtime.auto_captures after
    = Runtime.auto_captures busy ++ [(2500, 0%nat)] /\
  Runtime.auto_recognitions after
    = Runtime.auto_recognitions busy ++ [(2500, 0%nat)] /\
  List.length (Runtime.calls after) = 2%nat.
Proof. vm_compute. repeat split. Qed.

(** C6 (evaluation at the failing session). Auto-capture is switched off
    at 500 ms, during the first recognition, which settles at 1000 ms.
    The closure that started it ends its pause at 2500 ms, registers a
    frame callback again, and captures on that frame although
    [autoCapture] is false and no effect instance is in place. *)
Theorem sampling_survives_switch_off :
  let off := Runtime.run Runtime.mounted Scenario.switched_off in
  let later :=
    Runtime.run off [Runtime.Elapse 1500; Runtime.Frame (Some Scenario.page)] in
  Runtime.now off = 1000 /\
  App.autoCapture (Runtime.app off) = false /\
  Runtime.effect off = None /\
  Runtime.calls off = [] /\
  App.ocrText (Runtime.app off) = "HELLO"%string /\
  App.autoCapture (Runtime.app later) = false /\
  Runtime.auto_captures later
    = Runtime.auto_captures off ++ [(2500, 0%nat)] /\
  List.length (Runtime.calls later) = 1%nat.
Proof. vm_compute. repeat split. Qed.

(** ** C3: the threshold slider *)

(** C3 (evaluation at the failing inputs). With the slider at 100 or at
    2000 the sampling loop decides the same: a region of variance 225
    does not trigger and a region of variance 900 does; only the constant
    500 is compared with the variance. *)
Theorem slider_does_not_move_cutoff :
  let low := Runtime.run Runtime.mounted Scenario.slider_at_min in
  let high := Runtime.run Runtime.mounted Scenario.slider_at_max in
  let box v := App.imageData v 2 4 6 2 in
  App.autoConfidenceThreshold (Runtime.app low) = 0.1%float /\
  App.autoConfidenceThreshold (Runtime.app high) = 2%float /\
  Sampler.variance (box Scenario.dim) 6 2 = 225%float /\
  Sampler.variance (box Scenario.faint) 6 2 = 900%float /\
  Runtime.auto_captures
    (Runtime.step low (Runtime.Frame (Some Scenario.dim))) = [] /\
  Runtime.auto_captures
    (Runtime.step high (Runtime.Frame (Some Scenario.dim))) = [] /\
  Runtime.auto_captures
    (Runtime.step low (Runtime.Frame (Some Scenario.faint))) = [(0, 0%nat)] /\
  Runtime.auto_captures
    (Runtime.step high (Runtime.Frame (Some Scenario.faint))) = [(0, 0%nat)].
Proof. vm_compute. repeat split. Qed.

(* ================================================================== *)
(** * Further properties of the component *)

(** ** The statistic reads colours only *)

Lemma accumulate_short (p : list Z) (sum sumSq : float) :
  (List.length p < 4)%nat ->
  @Sampler.accumulate float Num.js p sum sumSq = (sum, sumSq).
Proof.
  destruct p as [|r [|g [|b [|a rest]]]]; simpl; intros H;
    try reflexivity; lia.
Qed.

Lemma accumulate_same_rgb (p q : list Z) :
  Observe.same_rgb p q ->
  forall sum sumSq : float,
    @Sampler.accumulate float Num.js p sum sumSq
    = @Sampler.accumulate float Num.js q sum sumSq.
Proof.
  induction 1 as [p q Hp Hq | r g b a a' p q _ IH]; intros sum sumSq.
  - now rewrite !accumulate_short.
  - simpl. apply IH.
Qed.

(** X1. The alpha byte of a pixel does not enter the contrast statistic:
    two buffers with the same red, green and blue bytes give the same
    variance, bit for bit. *)
Theorem variance_ignores_alpha (p q : list Z) (boxW boxH : Z) :
  Observe.same_rgb p q ->
  Sampler.variance p boxW boxH = Sampler.variance q boxW boxH.
Proof.
  intros H. unfold Sampler.variance, Sampler.variance_of.
  now rewrite (accumulate_same_rgb p q H).
Qed.

Lemma variance_ignores_alpha_witness :
  Observe.same_rgb [10; 200; 30; 255; 0; 0; 0; 255]
                   [10; 200; 30; 0; 0; 0; 0; 17] /\
  Sampler.variance [10; 200; 30; 255; 0; 0; 0; 255] 2 1
  = Sampler.variance [10; 200; 30; 0; 0; 0; 0; 17] 2 1.
Proof.
  assert (H : Observe.same_rgb [10; 200; 30; 255; 0; 0; 0; 255]
                               [10; 200; 30; 0; 0; 0; 0; 17]).
  { do 2 apply Observe.same_rgb_pixel.
    apply Observe.same_rgb_short; simpl; lia. }
  split; [exact H|].
  exact (variance_ignores_alpha _ _ 2 1 H).
Defined.

(** ** The centre box *)

Lemma all_upto_spec (n : nat) (f : Z -> bool) :
  Observe.all_upto n f = true ->
  forall k, 1 <= k <= Z.of_nat n -> f k = true.
Proof.
  induction n as [|n IH]; intros H k Hk; [lia|].
  simpl Observe.all_upto in H. apply andb_prop in H as [Hn Hrest].
  destruct (Z.eq_dec k (Z.of_nat (S n))) as [->|Hne]; [exact Hn|].
  apply IH; [exact Hrest | lia].
Qed.

Lemma boxes_agree_upto_4096 : Observe.all_upto 4096 Observe.box_agrees = true.
Proof. vm_compute. reflexivity. Qed.

Lemma box_agrees_spec (n : Z) :
  1 <= n <= 4096 ->
  Sampler.boxW n = 3 * n / 5 /\
  Sampler.boxH n = n / 5 /\
  Sampler.boxX n = (n - 3 * n / 5) / 2 /\
  Sampler.boxY n = (n - n / 5) / 2.
Proof.
  intros Hn.
  pose proof (all_upto_spec 4096 _ boxes_agree_upto_4096 n) as H.
  specialize (H ltac:(lia)). unfold Observe.box_agrees in H.
  apply andb_prop in H as [H HY]. apply andb_prop in H as [H HX].
  apply andb_prop in H as [HW HH].
  apply Z.eqb_eq in HW, HH, HX, HY. repeat split; assumption.
Qed.

(** X2. For every frame dimension from 1 to 4096 the centre box computed
    in doubles is the one integer arithmetic gives (60% of the width, 20%
    of the height, rounded down); it lies inside the frame and is centred
    up to one pixel.  The box is empty exactly for a width of 1 and for a
    height below 5. *)
Theorem centre_box_inside_frame (n : Z) :
  1 <= n <= 4096 ->
  Sampler.boxW n = 3 * n / 5 /\
  Sampler.boxH n = n / 5 /\
  (0 <= Sampler.boxX n /\ Sampler.boxX n + Sampler.boxW n <= n) /\
  (0 <= Sampler.boxY n /\ Sampler.boxY n + Sampler.boxH n <= n) /\
  (n - Sampler.boxW n - 1 <= 2 * Sampler.boxX n <= n - Sampler.boxW n) /\
  (n - Sampler.boxH n - 1 <= 2 * Sampler.boxY n <= n - Sampler.boxH n) /\
  (Sampler.boxW n = 0 <-> n = 1) /\
  (Sampler.boxH n = 0 <-> n <= 4).
Proof.
  intros Hn. destruct (box_agrees_spec n Hn) as (HW & HH & HX & HY).
  rewrite HW, HH, HX, HY.
  repeat split; Z.div_mod_to_equations; lia.
Qed.

Lemma centre_box_inside_frame_witness :
  1 <= 640 <= 4096 /\
  Sampler.boxW 640 = 3 * 640 / 5 /\
  Sampler.boxX 640 + Sampler.boxW 640 <= 640.
Proof.
  split; [lia|].
  pose proof (centre_box_inside_frame 640 ltac:(lia)) as H.
  split; [apply H | apply H].
Defined.

(** ** The slider fed back *)

Lemma slider_round_trips_upto_2000 :
  Observe.all_upto 2000
    (fun v => (v <? 100) || Controls.slider_round_trip v) = true.
Proof. vm_compute. reflexivity. Qed.

(** X3. Whatever the state, after the slider is moved to a position from
    100 to 2000 the value handed back to the slider is that position
    again, except at the odd positions from 1001 to 1023, where it is the
    double just below (the division by 1000 followed by the
    multiplication by 1000 loses one unit in the last place). *)
Theorem slider_value_round_trip (s : App.State) (value : Z) :
  100 <= value <= 2000 ->
  let back :=
    Controls.sliderValue (App.st (App.exec (App.onSliderChange value) s)) in
  if (1001 <=? value) && (value <=? 1023) && Z.odd value
  then back = PrimFloat.next_down (Num.of_Z value)
  else back = Num.of_Z value.
Proof.
  intros Hv back.
  pose proof (all_upto_spec 2000 _ slider_round_trips_upto_2000 value
                ltac:(lia)) as H.
  cbv beta in H. apply orb_prop in H as [H|H]; [apply Z.ltb_lt in H; lia|].
  unfold Controls.slider_round_trip in H.
  change (Controls.sliderValue
            (App.st (App.exec (App.onSliderChange value) App.initial)))
    with back in H.
  destruct ((1001 <=? value) && (value <=? 1023) && Z.odd value);
    now apply FloatAxioms.Leibniz.eqb_spec in H.
Qed.

Lemma slider_value_round_trip_witness :
  100 <= 600 <= 2000 /\
  Controls.sliderValue
    (App.st (App.exec (App.onSliderChange 600) App.initial)) = 600%float.
Proof.
  split; [lia|].
  exact (slider_value_round_trip App.initial 600 ltac:(lia)).
Defined.

(** ** The shape of each event of the page *)

Section Shapes.
Import App Runtime.

Lemma perform_eq {A} (src : Source) (m : M A) (s : Sys) :
  perform src m s =
    (fst (m {| st := app s; out := [] |}),
     {| app := st (snd (m {| st := app s; out := [] |}));
        now := now s; loops := loops s; effect := effect s;
        calls := calls s;
        trace := trace s ++
                 map (fun o => {| at_ms := now s; source := src; what := o |})
                     (out (snd (m {| st := app s; out := [] |}))) |}).
Proof. unfold perform. destruct (m _) as [a w]. reflexivity. Qed.

Lemma sys_eta (s : Sys) :
  {| app := app s; now := now s; loops := loops s; effect := effect s;
     calls := calls s; trace := trace s ++ [] |} = s.
Proof. rewrite app_nil_r. destruct s; reflexivity. Qed.

(** One call of [check] either changes nothing, or (closure not
    processing, video element present) takes the still and begins
    [runOcr]. *)
Lemma check_cases (p : bool) (w : option Worker) (videoRef : option Video)
      (world : World) :
  check p w videoRef world = (Reschedule, world) \/
  check p w videoRef world = (Thrown, world) \/
  exists video,
    videoRef = Some video /\ p = false /\
    check p w videoRef world =
      match w with
      | Some e =>
          (Fired (Some (toDataURL video)) (Some e),
           {| st := set_ocrText ""
                      (set_processing true
                         (set_lastCaptureDataUrl (Some (toDataURL video))
                                                 (st world)));
              out := out world ++ [Snapshot (toDataURL video);
                                   Recognize (Some (toDataURL video))] |})
      | None =>
          (Fired (Some (toDataURL video)) None,
           {| st := set_lastCaptureDataUrl (Some (toDataURL video))
                                           (st world);
              out := out world ++ [Snapshot (toDataURL video);
                                   Alert EngineNotReady] |})
      end.
Proof.
  unfold check.
  destruct videoRef as [video|]; [|now left].
  destruct (readyState video <? 2); [now left|].
  destruct ((videoWidth video =? 0) || (videoHeight video =? 0));
    [now left|].
  destruct ((Sampler.boxW (videoWidth video) =? 0)
            || (Sampler.boxH (videoHeight video) =? 0));
    [now right; left|].
  unfold Sampler.shouldTrigger.
  destruct (Num.gt _ _); [|now left].
  destruct p; [now left|].
  right; right. exists video. split; [reflexivity|]. split; [reflexivity|].
  simpl. unfold capturePhoto, runOcr_begin, bind, emit, ret,
    setLastCaptureDataUrl, setProcessing, setOcrText, update. simpl.
  destruct w; simpl; now rewrite <- app_assoc.
Qed.

(** The frame callback of a loop: nothing, the death of the loop, or a
    capture by a closure that saw [processing = false]. *)
Lemma tick_cases (videoRef : option Video) (s : Sys) (i : nat) :
  tick videoRef s i = s \/
  tick videoRef s i = with_loops (set_phase i Dead (loops s)) s \/
  exists video l,
    videoRef = Some video /\
    nth_error (loops s) i = Some l /\ phase l = Pending /\
    seen_processing l = false /\
    tick videoRef s i =
      match seen_worker l with
      | Some e =>
          {| app := set_ocrText ""
                      (set_processing true
                         (set_lastCaptureDataUrl (Some (toDataURL video))
                                                 (app s)));
             now := now s;
             loops := set_phase i InRecognize (loops s);
             effect := effect s;
             calls := calls s ++
                      [{| owner := Auto i; engine := e;
                          image := Some (toDataURL video) |}];
             trace := trace s ++
                      [{| at_ms := now s; source := Auto i;
                          what := Snapshot (toDataURL video) |};
                       {| at_ms := now s; source := Auto i;
                          what := Recognize (Some (toDataURL video)) |}] |}
      | None =>
          {| app := set_lastCaptureDataUrl (Some (toDataURL video)) (app s);
             now := now s;
             loops := set_phase i (Cooldown (now s + 1500)) (loops s);
             effect := effect s;
             calls := calls s;
             trace := trace s ++
                      [{| at_ms := now s; source := Auto i;
                          what := Snapshot (toDataURL video) |};
                       {| at_ms := now s; source := Auto i;
                          what := Alert EngineNotReady |}] |}
      end.
Proof.
  unfold tick.
  destruct (nth_error (loops s) i) as [[p w ph]|] eqn:Hnth; [|now left].
  destruct ph; try (now left).
  rewrite perform_eq.
  destruct (check_cases p w videoRef {| st := app s; out := [] |})
    as [E | [E | (video & Hv & Hp & E)]]; rewrite E; simpl.
  - left. apply sys_eta.
  - right; left. unfold with_loops. simpl. now rewrite app_nil_r.
  - right; right. exists video, {| seen_processing := p; seen_worker := w;
                                  phase := Pending |}.
    repeat split; try assumption.
    simpl. destruct w; reflexivity.
Qed.

Lemma deps_unchanged (a : State) : deps_changed a a = false.
Proof.
  unfold deps_changed. now rewrite !Bool.eqb_reflx.
Qed.

Lemma commit_same (s : Sys) : commit (app s) s = s.
Proof. unfold commit. now rewrite deps_unchanged. Qed.

Lemma commit_trace (before : State) (s : Sys) :
  trace (commit before s) = trace s.
Proof.
  unfold commit, setup, cleanup.
  destruct (deps_changed _ _); [|reflexivity].
  destruct (effect s) as [i|]; simpl.
  - destruct (nth_error (loops s) i) as [[? ? []]|]; simpl;
      destruct (autoCapture (app s)); reflexivity.
  - destruct (autoCapture (app s)); reflexivity.
Qed.

Lemma commit_now (before : State) (s : Sys) :
  now (commit before s) = now s.
Proof.
  unfold commit, setup, cleanup.
  destruct (deps_changed _ _); [|reflexivity].
  destruct (effect s) as [i|]; simpl.
  - destruct (nth_error (loops s) i) as [[? ? []]|]; simpl;
      destruct (autoCapture (app s)); reflexivity.
  - destruct (autoCapture (app s)); reflexivity.
Qed.

(** A click on the capture button, whatever the state of the page. *)
Lemma click_shape (s : Sys) (videoRef : option Video) :
  step s (CaptureClick videoRef) =
    commit (app s)
      (let taken :=
         match videoRef with
         | Some video => [Snapshot (toDataURL video)]
         | None => []
         end in
       let kept :=
         match videoRef with
         | Some video =>
             set_lastCaptureDataUrl (Some (toDataURL video)) (app s)
         | None => app s
         end in
       let dataUrl := option_map toDataURL videoRef in
       match worker (app s) with
       | Some e =>
           {| app := set_ocrText "" (set_processing true kept);
              now := now s; loops := loops s; effect := effect s;
              calls := calls s ++
                       [{| owner := Manual; engine := e; image := dataUrl |}];
              trace := trace s ++
                       map (fun o => {| at_ms := now s; source := Manual;
                                        what := o |})
                           (taken ++ [Recognize dataUrl]) |}
       | None =>
           {| app := kept;
              now := now s; loops := loops s; effect := effect s;
              calls := calls s;
              trace := trace s ++
                       map (fun o => {| at_ms := now s; source := Manual;
                                        what := o |})
                           (taken ++ [Alert EngineNotReady]) |}
       end).
Proof.
  unfold step. rewrite perform_eq.
  destruct videoRef as [video|]; simpl; rewrite perform_eq; simpl;
    destruct (worker (app s)); simpl; unfold with_calls; simpl;
    rewrite <- ?app_assoc, ?app_nil_r; reflexivity.
Qed.

End Shapes.

(** ** What the page never does *)

Section Page.
Import App Runtime.

Lemma frame_ind (P : Sys -> Prop) (videoRef : option Video) :
  (forall s i, P s -> P (tick videoRef s i)) ->
  forall ids s, P s -> P (fold_left (tick videoRef) ids s).
Proof.
  intros Htick ids. induction ids as [|i ids IH]; intros s H; [exact H|].
  simpl. apply IH, Htick, H.
Qed.

Lemma run_ind (P : Sys -> Prop) :
  (forall s e, P s -> P (step s e)) ->
  forall events s, P s -> P (run s events).
Proof.
  intros Hstep events. induction events as [|e events IH]; intros s H;
    [exact H|].
  simpl. apply IH, Hstep, H.
Qed.

Lemma resume_clears_processing (r : RecognizeResult) (world : World) :
  processing (st (snd (runOcr_resume r world))) = false.
Proof. destruct r; reflexivity. Qed.

Lemma resume_keeps_capture (r : RecognizeResult) (world : World) :
  lastCaptureDataUrl (st (snd (runOcr_resume r world)))
  = lastCaptureDataUrl (st world) /\
  Observe.latest_snapshot (lastCaptureDataUrl (st world))
    (out (snd (runOcr_resume r {| st := st world; out := [] |})))
  = lastCaptureDataUrl (st world).
Proof. destruct r; split; reflexivity. Qed.

(** *** A busy page has a recognition pending *)

Lemma step_busy_has_pending (s : Sys) (e : Event) :
  Observe.busy_has_pending s -> Observe.busy_has_pending (step s e).
Proof.
  unfold Observe.busy_has_pending. intros H.
  destruct e as [w|videoRef| |value| |videoRef|k|ms].
  - unfold step. destruct (worker (app s)); [exact H|].
    rewrite commit_app, commit_calls, perform_eq. exact H.
  - rewrite click_shape, commit_app, commit_calls. cbv zeta.
    destruct (worker (app s)); simpl.
    + intros _. now destruct (calls s).
    + destruct videoRef; exact H.
  - unfold step. rewrite commit_app, commit_calls, perform_eq. exact H.
  - unfold step. rewrite perform_eq. exact H.
  - unfold step. rewrite perform_eq. exact H.
  - unfold step. rewrite commit_app, commit_calls.
    apply (frame_ind (fun s => processing (app s) = true -> calls s <> []));
      [|exact H].
    clear. intros s i H.
    destruct (tick_cases videoRef s i)
      as [E | [E | (video & l & _ & _ & _ & _ & E)]]; rewrite E;
      try exact H.
    destruct (seen_worker l); simpl; [|exact H].
    intros _. now destruct (calls s).
  - unfold step. destruct (nth_error (calls s) k) as [c|]; [|exact H].
    rewrite commit_app. intros Hp. exfalso.
    destruct (owner c); simpl in Hp; rewrite perform_app in Hp;
      now rewrite resume_clears_processing in Hp.
  - unfold step. destruct (ms <? 0); exact H.
Qed.

End Page.

(** X4. In every state the page can reach, the result box shows the busy
    marker only while a call of [worker.recognize] is pending: the flag
    [processing] is never left set with nothing to clear it. *)
Theorem busy_box_has_pending_recognition (events : list Runtime.Event) :
  Controls.resultBox (Runtime.app (Runtime.run Runtime.mounted events))
    = Controls.Busy ->
  Runtime.calls (Runtime.run Runtime.mounted events) <> [].
Proof.
  intros Hbox.
  apply (run_ind Observe.busy_has_pending step_busy_has_pending events
           Runtime.mounted); [discriminate|].
  unfold Controls.resultBox in Hbox.
  destruct (App.processing _); [reflexivity|].
  destruct (Controls.truthy _); discriminate.
Qed.

Lemma busy_box_has_pending_recognition_witness :
  Controls.resultBox
    (Runtime.app
       (Runtime.run Runtime.mounted
          [Runtime.WorkerReady Scenario.hello;
           Runtime.CaptureClick (Some Scenario.page)])) = Controls.Busy /\
  Runtime.calls
    (Runtime.run Runtime.mounted
       [Runtime.WorkerReady Scenario.hello;
        Runtime.CaptureClick (Some Scenario.page)]) <> [].
Proof.
  split; [reflexivity|].
  exact (busy_box_has_pending_recognition
           [Runtime.WorkerReady Scenario.hello;
            Runtime.CaptureClick (Some Scenario.page)] eq_refl).
Defined.

(** X5. In every state the page can reach, the copy button hands to the
    clipboard exactly the text that the result box shows, and the empty
    string when the box shows the busy marker or the placeholder. *)
Theorem copy_writes_what_the_box_shows
        (events : list Runtime.Event) (accepted : bool) :
  Controls.written
    (Controls.copyTextToClipboard
       (Runtime.app (Runtime.run Runtime.mounted events)) accepted)
  = match Controls.resultBox
            (Runtime.app (Runtime.run Runtime.mounted events)) with
    | Controls.Text t => t
    | Controls.Busy | Controls.Placeholder => ""%string
    end.
Proof.
  pose proof (run_keeps_text_empty events Runtime.mounted
                (fun _ => eq_refl)) as Hinv.
  unfold App.text_empty_while_processing in Hinv.
  unfold Controls.copyTextToClipboard, Controls.resultBox. simpl.
  destruct (App.processing _); [now apply Hinv|].
  destruct (App.ocrText _); reflexivity.
Qed.

(** X6. A click on the capture button is never held back: with a worker
    in place it captures (when there is a video element), empties the
    text, sets [processing] and adds one pending recognition of its own,
    whether or not another recognition is already pending. *)
Theorem click_always_starts_a_recognition
        (s : Runtime.Sys) (videoRef : option App.Video) (w : App.Worker) :
  App.worker (Runtime.app s) = Some w ->
  let s' := Runtime.step s (Runtime.CaptureClick videoRef) in
  Runtime.calls s' =
    Runtime.calls s ++
    [{| Runtime.owner := Runtime.Manual; Runtime.engine := w;
        Runtime.image := option_map App.toDataURL videoRef |}] /\
  App.processing (Runtime.app s') = true /\
  App.ocrText (Runtime.app s') = ""%string /\
  App.lastCaptureDataUrl (Runtime.app s') =
    match videoRef with
    | Some video => Some (App.toDataURL video)
    | None => App.lastCaptureDataUrl (Runtime.app s)
    end.
Proof.
  intros Hw s'. subst s'.
  rewrite click_shape, commit_app, commit_calls. cbv zeta. rewrite Hw.
  simpl. destruct videoRef; repeat split.
Qed.

Lemma click_always_starts_a_recognition_witness :
  let busy :=
    Runtime.run Runtime.mounted
      [Runtime.WorkerReady Scenario.hello;
       Runtime.CaptureClick (Some Scenario.page)] in
  App.worker (Runtime.app busy) = Some Scenario.hello /\
  App.processing (Runtime.app busy) = true /\
  List.length
    (Runtime.calls (Runtime.step busy (Runtime.CaptureClick None))) = 2%nat.
Proof.
  cbv zeta. split; [reflexivity|]. split; [reflexivity|].
  rewrite (proj1 (click_always_starts_a_recognition
                    (Runtime.run Runtime.mounted
                       [Runtime.WorkerReady Scenario.hello;
                        Runtime.CaptureClick (Some Scenario.page)])
                    None Scenario.hello eq_refl)).
  reflexivity.
Defined.

(** ** The image offered for download *)

Section Download.
Import App Runtime Observe.

Lemma latest_snapshot_app (start : option string) (a b : list Output) :
  latest_snapshot start (a ++ b) = latest_snapshot (latest_snapshot start a) b.
Proof. apply fold_left_app. Qed.

Lemma tick_capture_is_latest (videoRef : option Video) (s : Sys) (i : nat) :
  capture_is_latest s -> capture_is_latest (tick videoRef s i).
Proof.
  unfold capture_is_latest. intros H.
  destruct (tick_cases videoRef s i)
    as [E | [E | (video & l & _ & _ & _ & _ & E)]]; rewrite E;
    try exact H.
  destruct (seen_worker l); simpl;
    now rewrite map_app, latest_snapshot_app.
Qed.

Lemma step_capture_is_latest (s : Sys) (e : Event) :
  capture_is_latest s -> capture_is_latest (step s e).
Proof.
  unfold capture_is_latest. intros H.
  destruct e as [w|videoRef| |value| |videoRef|k|ms].
  - unfold step. destruct (worker (app s)); [exact H|].
    rewrite commit_app, commit_trace, perform_eq. simpl.
    now rewrite app_nil_r.
  - rewrite click_shape, commit_app, commit_trace. cbv zeta.
    destruct (worker (app s)), videoRef; simpl;
      rewrite map_app, latest_snapshot_app; simpl; try reflexivity;
      exact H.
  - unfold step. rewrite commit_app, commit_trace, perform_eq. simpl.
    now rewrite app_nil_r.
  - unfold step. rewrite perform_eq. simpl. now rewrite app_nil_r.
  - unfold step. rewrite perform_eq. simpl. now rewrite app_nil_r.
  - unfold step. rewrite commit_app, commit_trace.
    apply (frame_ind capture_is_latest); [|exact H].
    intros s0 i. apply tick_capture_is_latest.
  - unfold step. destruct (nth_error (calls s) k) as [c|]; [|exact H].
    rewrite commit_app, commit_trace.
    destruct (owner c); simpl; rewrite perform_eq; simpl;
      destruct (recognize (engine c) (image c)); simpl;
      rewrite map_app, latest_snapshot_app; simpl; exact H.
  - unfold step. destruct (ms <? 0); exact H.
Qed.

End Download.

(** X7. In every state the page can reach, the download button offers
    the most recent capture, manual or automatic, under the name
    capture.jpg, and does nothing as long as no capture has been taken. *)
Theorem download_offers_latest_capture (events : list Runtime.Event) :
  Controls.downloadImage (Runtime.app (Runtime.run Runtime.mounted events))
  = match Observe.latest_snapshot None
            (map Runtime.what
                 (Runtime.trace (Runtime.run Runtime.mounted events))) with
    | Some url =>
        if Controls.truthy url
        then Some {| Controls.href := url;
                     Controls.download := "capture.jpg" |}
        else None
    | None => None
    end.
Proof.
  unfold Controls.downloadImage.
  now rewrite (run_ind Observe.capture_is_latest step_capture_is_latest
                 events Runtime.mounted eq_refl).
Qed.

(** ** Frames of a feed that is not ready *)

Section Unready.
Import App Runtime Observe.

Lemma check_not_ready (p : bool) (w : option Worker)
      (videoRef : option Video) (world : World) :
  not_ready videoRef = true ->
  check p w videoRef world = (Reschedule, world).
Proof.
  unfold not_ready, check. destruct videoRef as [video|]; [|reflexivity].
  intros H. destruct (readyState video <? 2); [reflexivity|].
  simpl in H. now rewrite H.
Qed.

Lemma tick_not_ready (videoRef : option Video) (s : Sys) (i : nat) :
  not_ready videoRef = true -> tick videoRef s i = s.
Proof.
  intros H. unfold tick.
  destruct (nth_error (loops s) i) as [[p w []]|]; try reflexivity.
  rewrite perform_eq, (check_not_ready p w videoRef _ H). simpl.
  apply sys_eta.
Qed.

End Unready.

(** X8. A display refresh that finds no video element, a feed without
    current data ([readyState] below 2) or a zero dimension leaves the
    whole page as it was, whatever closures are waiting: nothing is
    captured, nothing throws, and every waiting closure waits on. *)
Theorem frame_without_feed_changes_nothing
        (s : Runtime.Sys) (videoRef : option App.Video) :
  Observe.not_ready videoRef = true ->
  Runtime.step s (Runtime.Frame videoRef) = s.
Proof.
  intros H. unfold Runtime.step.
  assert (E : forall ids s0,
             fold_left (Runtime.tick videoRef) ids s0 = s0).
  { induction ids as [|i ids IH]; intros s0; [reflexivity|].
    simpl. now rewrite (tick_not_ready videoRef s0 i H). }
  rewrite E. apply commit_same.
Qed.

Lemma frame_without_feed_changes_nothing_witness :
  let waiting := Runtime.run Runtime.mounted [Runtime.ToggleAuto] in
  Observe.not_ready None = true /\
  map Runtime.phase (Runtime.loops waiting) = [Runtime.Pending] /\
  Runtime.step waiting (Runtime.Frame None) = waiting.
Proof.
  cbv zeta. split; [reflexivity|]. split; [reflexivity|].
  exact (frame_without_feed_changes_nothing
           (Runtime.run Runtime.mounted [Runtime.ToggleAuto]) None eq_refl).
Defined.

(** ** Sampling that has stopped stays stopped *)

Section Quiet.
Import App Runtime Observe.

Lemma nth_error_set_phase (i j : nat) (p : Phase) (ls : list Loop) :
  nth_error (set_phase i p ls) j =
    if Nat.eqb j i
    then option_map (fun l => {| seen_processing := seen_processing l;
                                 seen_worker := seen_worker l;
                                 phase := p |}) (nth_error ls i)
    else nth_error ls j.
Proof.
  revert i j. induction ls as [|l ls IH]; intros [|i] [|j]; simpl;
    try reflexivity.
  - now destruct (Nat.eqb j i).
  - apply IH.
Qed.

Lemma forallb_nth_error {A} (f : A -> bool) (xs : list A) :
  forallb f xs = true <->
  forall j x, nth_error xs j = Some x -> f x = true.
Proof.
  rewrite forallb_forall. split.
  - intros H j x Hj. apply H. eapply nth_error_In, Hj.
  - intros H x Hx. apply In_nth_error in Hx as [j Hj]. eapply H, Hj.
Qed.

Lemma forallb_remove_nth {A} (f : A -> bool) (k : nat) (xs : list A) :
  forallb f xs = true -> forallb f (remove_nth k xs) = true.
Proof.
  revert k. induction xs as [|x xs IH]; intros [|k] H; simpl in *;
    try reflexivity; apply andb_prop in H as [Hx Hxs]; [exact Hxs|].
  now rewrite Hx, IH.
Qed.

Lemma pending_from_quiet (i : nat) (ls : list Loop) :
  forallb (fun l => is_quiet (phase l)) ls = true -> pending_from i ls = [].
Proof.
  revert i. induction ls as [|[p w ph] ls IH]; intros i H; [reflexivity|].
  simpl in H. apply andb_prop in H as [Hq H].
  destruct ph; try discriminate; simpl; now apply IH.
Qed.

Lemma wake_quiet (t : Z) (ls : list Loop) :
  forallb (fun l => is_quiet (phase l)) ls = true ->
  forallb (fun l => is_quiet (phase l)) (map (wake t) ls) = true.
Proof.
  induction ls as [|[p w ph] ls IH]; intros H; [reflexivity|].
  simpl in H. apply andb_prop in H as [Hq H].
  simpl. rewrite (IH H), andb_true_r.
  destruct ph; try discriminate; reflexivity.
Qed.

Lemma auto_captures_manual (s : Sys) (entries : list Output) (t : Z) :
  flat_map (fun e =>
              match source e, what e with
              | Auto i, Snapshot _ => [(at_ms e, i)]
              | _, _ => []
              end)
           (trace s ++
            map (fun o => {| at_ms := t; source := Manual; what := o |})
                entries)
  = auto_captures s.
Proof.
  rewrite flat_map_app. unfold auto_captures.
  replace (flat_map _ (map _ entries)) with (@nil (Z * nat));
    [apply app_nil_r|].
  induction entries as [|o os IH]; [reflexivity|]. simpl. exact IH.
Qed.

Lemma commit_quiet (before : State) (s : Sys) :
  autoCapture (app s) = false -> effect s = None -> commit before s = s.
Proof.
  intros Ha He. unfold commit, setup, cleanup.
  destruct (deps_changed _ _); [|reflexivity].
  rewrite He, Ha. destruct s; simpl in *. now subst.
Qed.

Lemma step_quiescent (s : Sys) (e : Event) :
  quiescent s -> is_toggle e = false ->
  quiescent (step s e) /\ auto_captures (step s e) = auto_captures s.
Proof.
  intros (Ha & He & Hl & Hc) Ht.
  destruct e as [w|videoRef| |value| |videoRef|k|ms]; try discriminate.
  - unfold step. destruct (worker (app s));
      [split; [repeat split; assumption | reflexivity]|].
    rewrite perform_eq. cbn [snd].
    rewrite commit_quiet by assumption.
    split; [repeat split; assumption|].
    unfold auto_captures at 1. cbn [trace]. apply auto_captures_manual.
  - rewrite click_shape. cbv zeta.
    destruct (worker (app s)); rewrite commit_quiet
      by (try assumption; destruct videoRef; assumption).
    + split; [repeat split; try assumption|].
      * destruct videoRef; assumption.
      * cbn [calls]. rewrite forallb_app, Hc. reflexivity.
      * unfold auto_captures at 1. cbn [trace]. apply auto_captures_manual.
    + split; [repeat split; try assumption; destruct videoRef; assumption|].
      unfold auto_captures at 1. cbn [trace]. apply auto_captures_manual.
  - unfold step. rewrite perform_eq. cbn [snd].
    split; [repeat split; assumption|].
    unfold auto_captures at 1. cbn [trace]. apply auto_captures_manual.
  - unfold step. rewrite perform_eq. cbn [snd].
    split; [repeat split; assumption|].
    unfold auto_captures at 1. cbn [trace]. apply auto_captures_manual.
  - unfold step. rewrite (pending_from_quiet 0 _ Hl). simpl.
    rewrite commit_same. split; [repeat split; assumption | reflexivity].
  - unfold step. destruct (nth_error (calls s) k) as [c|] eqn:Hk;
      [|split; [repeat split; assumption | reflexivity]].
    assert (Hm : owner c = Manual).
    { pose proof (proj1 (forallb_nth_error is_manual (calls s)) Hc k c Hk)
        as Hm. unfold is_manual in Hm. now destruct (owner c). }
    rewrite Hm, perform_eq. cbn [snd].
    rewrite commit_quiet;
      [| destruct (recognize (engine c) (image c)); assumption
       | assumption].
    split.
    + repeat split; try assumption.
      * destruct (recognize (engine c) (image c)); assumption.
      * cbn [calls]. now apply forallb_remove_nth.
    + unfold auto_captures at 1. cbn [trace].
      apply (auto_captures_manual
               (with_calls (remove_nth k (calls s)) s)).
  - unfold step. destruct (ms <? 0);
      [split; [repeat split; assumption | reflexivity]|].
    split; [|reflexivity].
    repeat split; try assumption. cbn [loops]. now apply wake_quiet.
Qed.

Lemma run_quiescent (events : list Event) :
  forall s,
    quiescent s -> forallb (fun e => negb (is_toggle e)) events = true ->
    quiescent (run s events) /\
    auto_captures (run s events) = auto_captures s.
Proof.
  induction events as [|e events IH]; intros s Hq Hev;
    [split; [exact Hq | reflexivity]|].
  simpl in Hev. apply andb_prop in Hev as [He Hev].
  apply negb_true_iff in He.
  destruct (step_quiescent s e Hq He) as [Hq' Hc'].
  destruct (IH (step s e) Hq' Hev) as [Hq'' Hc''].
  split; [exact Hq''|]. simpl. congruence.
Qed.

Lemma switch_off_quiescent (s : Sys) :
  autoCapture (app s) = true -> nothing_suspended s ->
  quiescent (step s ToggleAuto) /\
  auto_captures (step s ToggleAuto) = auto_captures s.
Proof.
  intros Ha [Hc Hl]. unfold step. rewrite perform_eq, Ha. cbn [snd negb].
  match goal with |- context [commit _ ?mid] => set (s1 := mid) end.
  assert (Hdeps : deps_changed (app s) (app s1) = true).
  { unfold deps_changed. subst s1. simpl. now rewrite Ha. }
  unfold commit. rewrite Hdeps.
  assert (Hq : forallb (fun l => is_quiet (phase l)) (loops (cleanup s1))
               = true).
  { apply forallb_nth_error. intros j l Hj.
    unfold cleanup in Hj. subst s1. cbn [effect loops] in Hj.
    destruct (effect s) as [i|] eqn:He.
    - destruct (nth_error (loops s) i) as [[p w ph]|] eqn:Hi.
      + assert (Hother :
                  forall l0, nth_error (loops s) j = Some l0 -> j <> i ->
                             is_quiet (phase l0) = true).
        { intros l0 H0 Hne. destruct (Hl j l0 H0) as [Hquiet | [_ Heq]];
            [exact Hquiet | congruence]. }
        destruct ph; cbn [with_loops loops] in Hj;
          try (destruct (Nat.eq_dec j i) as [->|Hne];
               [ destruct (Hl i _ Hi) as [Hquiet | [Hp _]];
                 [ rewrite Hi in Hj; injection Hj as <-; exact Hquiet
                 | discriminate Hp ]
               | now apply (Hother l) ]).
        rewrite nth_error_set_phase in Hj.
        destruct (Nat.eqb_spec j i) as [->|Hne].
        * rewrite Hi in Hj. simpl in Hj. injection Hj as <-. reflexivity.
        * now apply (Hother l).
      + cbn [loops] in Hj.
        destruct (Hl j l Hj) as [Hquiet | [_ Heq]]; [exact Hquiet|].
        injection Heq as <-. rewrite Hi in Hj. discriminate Hj.
    - cbn [loops] in Hj.
      destruct (Hl j l Hj) as [Hquiet | [_ Heq]]; [exact Hquiet|].
      discriminate Heq. }
  assert (Hfacts : autoCapture (app (cleanup s1)) = false /\
                   calls (cleanup s1) = calls s /\
                   trace (cleanup s1) = trace s ++ []).
  { unfold cleanup. subst s1. cbn [effect loops].
    destruct (effect s) as [i|]; [|repeat split].
    destruct (nth_error (loops s) i) as [[p w []]|]; repeat split. }
  destruct Hfacts as (Hauto & Hcalls & Htrace).
  unfold setup. rewrite Hauto.
  split.
  - repeat split; cbn [app effect loops calls]; try assumption.
    now rewrite Hcalls.
  - unfold auto_captures. cbn [trace]. now rewrite Htrace, app_nil_r.
Qed.

End Quiet.

Lemma run_no_loops (evs : list Runtime.Event) :
  forall s,
    Observe.quiescent s -> Runtime.loops s = [] ->
    forallb (fun e => negb (Observe.is_toggle e)) evs = true ->
    Runtime.loops (Runtime.run s evs) = [].
Proof.
  induction evs as [|e evs IH]; intros s Hs Hl Hevs; [exact Hl|].
  simpl in Hevs. apply andb_prop in Hevs as [He Hevs].
  apply negb_true_iff in He. simpl. apply IH; [| |exact Hevs].
  - apply (step_quiescent s e Hs He).
  - destruct Hs as (Ha & Heff & _ & Hc).
    destruct e as [w|videoRef| |value| |videoRef|k|ms];
      try discriminate He; unfold Runtime.step.
    + destruct (App.worker (Runtime.app s)); [exact Hl|].
      rewrite perform_eq, commit_quiet; assumption.
    + fold (Runtime.step s (Runtime.CaptureClick videoRef)).
      rewrite click_shape. cbv zeta.
      destruct (App.worker (Runtime.app s)); rewrite commit_quiet;
        try assumption; destruct videoRef; assumption.
    + rewrite perform_eq. exact Hl.
    + rewrite perform_eq. exact Hl.
    + rewrite Hl. simpl. rewrite commit_same. exact Hl.
    + destruct (nth_error (Runtime.calls s) k) as [c|] eqn:Hk;
        [|exact Hl].
      assert (Hm : Runtime.owner c = Runtime.Manual).
      { pose proof (proj1 (forallb_nth_error Observe.is_manual
                              (Runtime.calls s)) Hc k c Hk) as Hm.
        unfold Observe.is_manual in Hm.
        now destruct (Runtime.owner c). }
      rewrite Hm, perform_eq. cbn [snd].
      rewrite commit_quiet; try assumption.
      destruct (App.recognize _ _); assumption.
    + destruct (ms <? 0); [exact Hl|]. simpl. now rewrite Hl.
Qed.

(** X9. Auto-capture is off when the page is mounted, and as long as the
    auto-capture button is not pressed no capture is ever taken by the
    sampling loop, whatever else happens (clicks, frames, recognitions
    settling, time passing). *)
Theorem no_automatic_capture_unless_switched_on
        (events : list Runtime.Event) :
  forallb (fun e => negb (Observe.is_toggle e)) events = true ->
  Runtime.auto_captures (Runtime.run Runtime.mounted events) = [] /\
  Runtime.loops (Runtime.run Runtime.mounted events) = [].
Proof.
  intros Hev.
  assert (Hq : Observe.quiescent Runtime.mounted) by (repeat split).
  destruct (run_quiescent events Runtime.mounted Hq Hev) as [_ Hc].
  split; [exact Hc|].
  now apply run_no_loops.
Qed.

Lemma no_automatic_capture_unless_switched_on_witness :
  let events :=
    [Runtime.WorkerReady Scenario.hello; Runtime.Frame (Some Scenario.page);
     Runtime.CaptureClick (Some Scenario.page); Runtime.Elapse 2000;
     Runtime.RecognizeSettles 0; Runtime.Frame (Some Scenario.page)] in
  forallb (fun e => negb (Observe.is_toggle e)) events = true /\
  Runtime.auto_captures (Runtime.run Runtime.mounted events) = [].
Proof.
  cbv zeta. split; [reflexivity|].
  exact (proj1 (no_automatic_capture_unless_switched_on
                  [Runtime.WorkerReady Scenario.hello;
                   Runtime.Frame (Some Scenario.page);
                   Runtime.CaptureClick (Some Scenario.page);
                   Runtime.Elapse 2000; Runtime.RecognizeSettles 0;
                   Runtime.Frame (Some Scenario.page)] eq_refl)).
Defined.

(** X10. When auto-capture is switched off while no closure is suspended
    (the closure of the effect instance in place waits for a frame, every
    other closure is cancelled or dead, no recognition started by a
    closure is pending), sampling stops: until the button is pressed
    again, no automatic capture is taken. *)
Theorem switch_off_stops_idle_sampling
        (s : Runtime.Sys) (events : list Runtime.Event) :
  App.autoCapture (Runtime.app s) = true ->
  Observe.nothing_suspended s ->
  forallb (fun e => negb (Observe.is_toggle e)) events = true ->
  Runtime.auto_captures
    (Runtime.run (Runtime.step s Runtime.ToggleAuto) events)
  = Runtime.auto_captures s.
Proof.
  intros Ha Hs Hev.
  destruct (switch_off_quiescent s Ha Hs) as [Hq Hc].
  destruct (run_quiescent events _ Hq Hev) as [_ Hc'].
  congruence.
Qed.

Lemma switch_off_stops_idle_sampling_witness :
  let on :=
    Runtime.run Runtime.mounted
      [Runtime.WorkerReady Scenario.hello; Runtime.ToggleAuto;
       Runtime.Frame (Some Scenario.dim)] in
  let events :=
    [Runtime.Frame (Some Scenario.page); Runtime.Elapse 2000;
     Runtime.Frame (Some Scenario.page)] in
  App.autoCapture (Runtime.app on) = true /\
  Runtime.auto_captures
    (Runtime.run (Runtime.step on Runtime.ToggleAuto) events) = [].
Proof.
  cbv zeta. split; [reflexivity|].
  refine (switch_off_stops_idle_sampling
            (Runtime.run Runtime.mounted
               [Runtime.WorkerReady Scenario.hello; Runtime.ToggleAuto;
                Runtime.Frame (Some Scenario.dim)])
            [Runtime.Frame (Some Scenario.page); Runtime.Elapse 2000;
             Runtime.Frame (Some Scenario.page)] eq_refl _ eq_refl).
  split; [reflexivity|].
  intros i l.
  change (nth_error
            [{| Runtime.seen_processing := false;
                Runtime.seen_worker := Some Scenario.hello;
                Runtime.phase := Runtime.Pending |}] i = Some l ->
          Observe.is_quiet (Runtime.phase l) = true \/
          Runtime.phase l = Runtime.Pending /\ Some 0%nat = Some i).
  destruct i as [|[|i]]; intros Hl; try discriminate Hl.
  injection Hl as <-. right. split; reflexivity.
Defined.

(** ** The pause of a closure *)

Section Pause.
Import App Runtime Observe.

Lemma nil_or_last {A} (xs : list A) :
  xs = [] \/ exists front x, xs = front ++ [x].
Proof.
  induction xs as [|x xs _] using rev_ind; [now left|].
  right. now exists xs, x.
Qed.

Lemma spaced_snoc (caps : list (Z * nat)) (t' : Z) (i : nat) :
  spaced caps ->
  (forall t, In (t, i) caps -> t + 1500 <= t') ->
  spaced (caps ++ [(t', i)]).
Proof.
  intros Hs Hi l1 l2 l3 t1 t2 j Heq.
  destruct (nil_or_last l3) as [-> | (l3' & x & ->)].
  - change (l1 ++ (t1, j) :: l2 ++ [(t2, j)])
      with (l1 ++ ((t1, j) :: l2) ++ [(t2, j)]) in Heq.
    rewrite app_assoc in Heq. apply app_inj_tail in Heq as [Hc Hx].
    injection Hx as <- <-. apply Hi. rewrite Hc.
    apply in_or_app. right. left. reflexivity.
  - replace (l1 ++ (t1, j) :: l2 ++ (t2, j) :: l3' ++ [x])
      with ((l1 ++ (t1, j) :: l2 ++ (t2, j) :: l3') ++ [x]) in Heq
      by (rewrite <- !app_assoc; simpl; rewrite <- !app_assoc; reflexivity).
    apply app_inj_tail in Heq as [Hc _].
    exact (Hs l1 l2 l3' t1 t2 j Hc).
Qed.

Lemma captures_of_frame_entries (tr : list Entry) (t : Z) (i : nat)
      (url : string) (o : Output) :
  (forall u, o <> Snapshot u) ->
  flat_map (fun e =>
              match source e, what e with
              | Auto j, Snapshot _ => [(at_ms e, j)]
              | _, _ => []
              end)
           (tr ++ [{| at_ms := t; source := Auto i; what := Snapshot url |};
                   {| at_ms := t; source := Auto i; what := o |}])
  = flat_map (fun e =>
                match source e, what e with
                | Auto j, Snapshot _ => [(at_ms e, j)]
                | _, _ => []
                end) tr ++ [(t, i)].
Proof.
  intros Ho. rewrite flat_map_app. f_equal. simpl.
  destruct o; try reflexivity. now destruct (Ho dataUrl).
Qed.

Lemma captures_of_quiet_entries (tr : list Entry) (t : Z) (src : Source)
      (os : list Output) :
  (forall o, In o os -> forall u, o <> Snapshot u) ->
  flat_map (fun e =>
              match source e, what e with
              | Auto j, Snapshot _ => [(at_ms e, j)]
              | _, _ => []
              end)
           (tr ++ map (fun o => {| at_ms := t; source := src; what := o |}) os)
  = flat_map (fun e =>
                match source e, what e with
                | Auto j, Snapshot _ => [(at_ms e, j)]
                | _, _ => []
                end) tr.
Proof.
  intros Hos. rewrite flat_map_app.
  replace (flat_map _ (map _ os)) with (@nil (Z * nat));
    [apply app_nil_r|].
  induction os as [|o os IH]; [reflexivity|]. simpl.
  rewrite <- IH by (intros o' Ho'; apply Hos; now right).
  destruct src; [reflexivity|].
  destruct o; try reflexivity. now destruct (Hos (Snapshot dataUrl)
                                               (or_introl eq_refl) dataUrl).
Qed.

(** Changing the phase of loops to one that is neither [Pending] nor a
    timer, or appending loops, keeps the invariant. *)
Lemma cooldown_kept_loops (s : Sys) (ls : list Loop) :
  cooldown_kept s ->
  (forall i l, nth_error (loops s) i = Some l ->
     exists l', nth_error ls i = Some l' /\
       (phase l' = phase l \/
        (phase l' <> Pending /\ forall u, phase l' <> Cooldown u))) ->
  cooldown_kept (with_loops ls s).
Proof.
  intros [Hs Hk] Hls. split; [exact Hs|].
  intros t i Hin. destruct (Hk t i Hin) as (Hnow & l & Hl & Hp & Hc).
  split; [exact Hnow|].
  destruct (Hls i l Hl) as (l' & Hl' & [Hsame | [Hnp Hnc]]).
  - exists l'. split; [exact Hl'|]. rewrite Hsame. split; assumption.
  - exists l'. split; [exact Hl'|]. split.
    + intros H. now destruct (Hnp H).
    + intros u H. now destruct (Hnc u H).
Qed.

Lemma set_phase_changes_one (i : nat) (p : Phase) (ls : list Loop) :
  forall j l, nth_error ls j = Some l ->
    exists l', nth_error (set_phase i p ls) j = Some l' /\
      (j <> i -> phase l' = phase l) /\ (j = i -> phase l' = p).
Proof.
  intros j l Hj. rewrite nth_error_set_phase.
  destruct (Nat.eqb_spec j i) as [->|Hne].
  - rewrite Hj. simpl. eexists. split; [reflexivity|].
    split; [intros H; now destruct H | reflexivity].
  - exists l. split; [exact Hj|]. split; [reflexivity | intros H; now destruct (Hne H)].
Qed.

Lemma commit_cooldown_kept (before : State) (s : Sys) :
  cooldown_kept s -> cooldown_kept (commit before s).
Proof.
  intros H. unfold commit. destruct (deps_changed _ _); [|exact H].
  assert (Hc : cooldown_kept (cleanup s)).
  { unfold cleanup. destruct (effect s) as [i|]; [|exact H].
    destruct (nth_error (loops s) i) as [[p w ph]|]; [|exact H].
    destruct ph; try exact H.
    apply cooldown_kept_loops; [exact H|].
    intros j l Hj.
    destruct (set_phase_changes_one i Cancelled (loops s) j l Hj)
      as (l' & Hl' & Hne & Heq).
    exists l'. split; [exact Hl'|].
    destruct (Nat.eq_dec j i) as [E|E].
    - right. rewrite (Heq E). split; [discriminate|]. intros u; discriminate.
    - left. exact (Hne E). }
  unfold setup. destruct (autoCapture (app (cleanup s))).
  - destruct Hc as [Hs Hk]. split; [exact Hs|].
    intros t i Hin. destruct (Hk t i Hin) as (Hnow & l & Hl & Hp & Hcd).
    split; [exact Hnow|]. exists l. split; [|split; assumption].
    cbn [loops]. rewrite nth_error_app1; [exact Hl|].
    apply nth_error_Some. congruence.
  - destruct Hc as [Hs Hk]. split; [exact Hs|]. exact Hk.
Qed.

(** A handler piece that takes no capture keeps the invariant. *)
Lemma perform_cooldown_kept {A} (src : Source) (m : M A) (s : Sys) :
  cooldown_kept s ->
  (forall o, In o (out (snd (m {| st := app s; out := [] |}))) ->
     forall u, o <> Snapshot u) ->
  cooldown_kept (snd (perform src m s)).
Proof.
  intros [Hs Hk] Hquiet. rewrite perform_eq. cbn [snd].
  unfold cooldown_kept, auto_captures. cbn [trace now loops].
  rewrite captures_of_quiet_entries by exact Hquiet.
  split; [exact Hs | exact Hk].
Qed.

Lemma manual_entries_cooldown_kept (s : Sys) (a : State) (cs : list Call)
      (os : list Output) :
  cooldown_kept s ->
  cooldown_kept
    {| app := a; now := now s; loops := loops s; effect := effect s;
       calls := cs;
       trace := trace s ++
                map (fun o => {| at_ms := now s; source := Manual;
                                 what := o |}) os |}.
Proof.
  intros [Hs Hk]. unfold cooldown_kept, auto_captures at 1 2.
  cbn [trace now loops]. rewrite (auto_captures_manual s os (now s)).
  split; assumption.
Qed.

Lemma tick_cooldown_kept (videoRef : option Video) (s : Sys) (i : nat) :
  cooldown_kept s -> cooldown_kept (tick videoRef s i).
Proof.
  intros H.
  destruct (tick_cases videoRef s i)
    as [E | [E | (video & l & _ & Hl & Hph & _ & E)]]; rewrite E.
  - exact H.
  - apply cooldown_kept_loops; [exact H|].
    intros j l Hj.
    destruct (set_phase_changes_one i Dead (loops s) j l Hj)
      as (l' & Hl' & Hne & Heq).
    exists l'. split; [exact Hl'|].
    destruct (Nat.eq_dec j i) as [Eji|Eji].
    + right. rewrite (Heq Eji). split; [discriminate|]. intros u; discriminate.
    + left. exact (Hne Eji).
  - destruct H as [Hs Hk].
    assert (Hold : forall t, In (t, i) (auto_captures s) ->
                             t + 1500 <= now s).
    { intros t Hin. destruct (Hk t i Hin) as (_ & l0 & Hl0 & Hp & _).
      rewrite Hl in Hl0. injection Hl0 as <-. exact (Hp Hph). }
    assert (Hcaps : forall o ls cs a,
               (forall u, o <> Snapshot u) ->
               auto_captures
                 {| app := a; now := now s; loops := ls; effect := effect s;
                    calls := cs;
                    trace := trace s ++
                      [{| at_ms := now s; source := Auto i;
                          what := Snapshot (toDataURL video) |};
                       {| at_ms := now s; source := Auto i; what := o |}] |}
               = auto_captures s ++ [(now s, i)]).
    { intros o ls cs a Ho.
      unfold auto_captures. cbn [trace].
      now apply captures_of_frame_entries. }
    assert (Hgoal : forall o ph' cs a,
               (forall u, o <> Snapshot u) ->
               ph' <> Pending ->
               (forall u, ph' = Cooldown u -> u = now s + 1500) ->
               cooldown_kept
                 {| app := a; now := now s;
                    loops := set_phase i ph' (loops s);
                    effect := effect s; calls := cs;
                    trace := trace s ++
                      [{| at_ms := now s; source := Auto i;
                          what := Snapshot (toDataURL video) |};
                       {| at_ms := now s; source := Auto i; what := o |}] |}).
    { intros o ph' cs a Ho Hnp Hcd.
      pose proof (Hcaps o (set_phase i ph' (loops s)) cs a Ho) as Hc.
      unfold cooldown_kept. rewrite Hc. cbn [now loops].
      split; [now apply spaced_snoc|].
      intros t j Hin. apply in_app_or in Hin as [Hin | [Hin | []]].
      - destruct (Hk t j Hin) as (Hnow & l0 & Hl0 & Hp & Hc0).
        split; [exact Hnow|].
        destruct (set_phase_changes_one i ph' (loops s) j l0 Hl0)
          as (l' & Hl' & Hne & Heq).
        exists l'. split; [exact Hl'|].
        destruct (Nat.eq_dec j i) as [Eji|Eji].
        + rewrite (Heq Eji). split; [intros Hx; now destruct (Hnp Hx)|].
          intros u Hu. rewrite (Hcd u Hu). lia.
        + rewrite (Hne Eji). split; assumption.
      - injection Hin as <- <-. split; [lia|].
        destruct (set_phase_changes_one i ph' (loops s) i l Hl)
          as (l' & Hl' & _ & Heq).
        exists l'. split; [exact Hl'|]. rewrite (Heq eq_refl).
        split; [intros Hx; now destruct (Hnp Hx)|].
        intros u Hu. rewrite (Hcd u Hu). lia. }
    destruct (seen_worker l).
    + apply Hgoal; [discriminate | discriminate | discriminate].
    + apply Hgoal; [discriminate | discriminate |].
      intros u Hu. now injection Hu as <-.
Qed.

Lemma step_cooldown_kept (s : Sys) (e : Event) :
  cooldown_kept s -> cooldown_kept (step s e).
Proof.
  intros H. destruct e as [w|videoRef| |value| |videoRef|k|ms].
  - unfold step. destruct (worker (app s)); [exact H|].
    apply commit_cooldown_kept, perform_cooldown_kept; [exact H|].
    intros o [].
  - rewrite click_shape. cbv zeta. apply commit_cooldown_kept.
    destruct (worker (app s)); apply manual_entries_cooldown_kept; exact H.
  - unfold step. apply commit_cooldown_kept, perform_cooldown_kept;
      [exact H|]. intros o [].
  - unfold step. apply perform_cooldown_kept; [exact H|]. intros o [].
  - unfold step. apply perform_cooldown_kept; [exact H|]. intros o [].
  - unfold step. apply commit_cooldown_kept.
    apply (frame_ind cooldown_kept); [|exact H].
    intros s0 i. apply tick_cooldown_kept.
  - unfold step. destruct (nth_error (calls s) k) as [c|]; [|exact H].
    apply commit_cooldown_kept.
    assert (H1 : cooldown_kept
                   (snd (perform (owner c)
                           (runOcr_resume (recognize (engine c) (image c)))
                           (with_calls (remove_nth k (calls s)) s)))).
    { apply perform_cooldown_kept; [exact H|].
      intros o Ho u. destruct (recognize (engine c) (image c));
        simpl in Ho; intuition (subst; discriminate). }
    assert (Hnow : now (snd (perform (owner c)
                           (runOcr_resume (recognize (engine c) (image c)))
                           (with_calls (remove_nth k (calls s)) s)))
                   = now s) by (rewrite perform_eq; reflexivity).
    destruct (owner c) as [|i]; [exact H1|].
    set (s1 := snd _) in *.
    destruct H1 as [Hs Hk]. split; [exact Hs|].
    intros t j Hin. destruct (Hk t j Hin) as (Ht & l & Hl & Hp & Hc).
    split; [exact Ht|].
    destruct (set_phase_changes_one i (Cooldown (now s1 + 1500)) (loops s1)
                j l Hl) as (l' & Hl' & Hne & Heq).
    exists l'. split; [exact Hl'|].
    destruct (Nat.eq_dec j i) as [Eji|Eji].
    + rewrite (Heq Eji). split; [discriminate|].
      intros u Hu. injection Hu as <-. cbn [now with_loops] in Ht. lia.
    + rewrite (Hne Eji). split; assumption.
  - unfold step. destruct (ms <? 0) eqn:Hms; [exact H|].
    apply Z.ltb_ge in Hms. destruct H as [Hs Hk]. split; [exact Hs|].
    intros t i Hin. destruct (Hk t i Hin) as (Ht & l & Hl & Hp & Hc).
    cbn [now loops]. split; [lia|].
    exists (wake (now s + ms) l). split; [now rewrite nth_error_map, Hl|].
    unfold wake. destruct (phase l) eqn:Hph; rewrite ?Hph;
      try (split; [discriminate | intros u; discriminate]).
    + split; [intros _; specialize (Hp eq_refl); lia
             | intros u; discriminate].
    + destruct (until <=? now s + ms) eqn:Hu; cbn [phase]; rewrite ?Hph.
      * apply Z.leb_le in Hu. specialize (Hc until eq_refl).
        split; [intros _; lia | intros u; discriminate].
      * split; [discriminate|]. intros u Hx. injection Hx as <-.
        exact (Hc until eq_refl).
Qed.

End Pause.

(** X11. In every session, two captures taken by the same [check]
    closure are at least 1500 ms apart: the closure that captured does
    wait in its [setTimeout] before it samples again. (Captures by
    different closures are not kept apart, see C2.) *)
Theorem same_closure_captures_are_spaced (events : list Runtime.Event) :
  Observe.spaced (Runtime.auto_captures (Runtime.run Runtime.mounted events)).
Proof.
  apply (run_ind Observe.cooldown_kept step_cooldown_kept events
           Runtime.mounted).
  split.
  - intros l1 l2 l3 t1 t2 i Heq. now destruct l1.
  - intros t i [].
Qed.

(** ** The camera stream *)

Section Streams.
Import Camera.

Lemma stop_other (seen : option nat) (s : nat) :
  seen <> Some s -> stop seen [s] = [s].
Proof.
  destruct seen as [id|]; [|reflexivity]. intros H. simpl.
  destruct (Nat.eqb_spec s id) as [->|_]; [now destruct H | reflexivity].
Qed.

Lemma stop_self (s : nat) : stop (Some s) [s] = [].
Proof. simpl. now rewrite Nat.eqb_refl. Qed.

(** The state after a switch that is left to finish. *)
Lemma switch_shape (d : Device) (s : nat) (seen : option nat) :
  stream (cells d) = Some s -> running d = [s] -> awaiting d = [] ->
  closure d = Some seen -> seen <> Some s ->
  run d switch =
    {| cells := {| stream := Some (List.length (requested d));
                   facingMode := toggleFacing (facingMode (cells d)) |};
       running := [List.length (requested d)];
       requested := requested d ++ [toggleFacing (facingMode (cells d))];
       srcObject := Some (List.length (requested d));
       awaiting := [];
       closure := Some (Some s);
       alerts := alerts d |}.
Proof.
  intros Hs Hr Ha Hc Hseen.
  unfold run, switch, fold_left, step at 3, cleanup, effect,
    startCamera_begin.
  rewrite Hc. cbn [cells running requested srcObject awaiting closure
                   alerts stream facingMode].
  rewrite Hs, Hr, Ha, (stop_other seen s Hseen), stop_self.
  reflexivity.
Qed.

(** The state right after the camera-switch button. *)
Lemma toggle_shape (d : Device) (s : nat) (seen : option nat) :
  stream (cells d) = Some s -> running d = [s] -> awaiting d = [] ->
  closure d = Some seen -> seen <> Some s ->
  step d ToggleFacing =
    {| cells := {| stream := Some s;
                   facingMode := toggleFacing (facingMode (cells d)) |};
       running := [];
       requested := requested d;
       srcObject := srcObject d;
       awaiting := [GetUserMedia (toggleFacing (facingMode (cells d)))];
       closure := Some (Some s);
       alerts := alerts d |}.
Proof.
  intros Hs Hr Ha Hc Hseen.
  unfold step, cleanup, effect, startCamera_begin.
  rewrite Hc. cbn [cells running requested srcObject awaiting closure
                   alerts stream facingMode].
  rewrite Hs, Hr, Ha, (stop_other seen s Hseen), stop_self.
  reflexivity.
Qed.

Lemma settled_switch (d : Device) :
  settled d ->
  settled (run d switch) /\
  facingMode (cells (run d switch)) = toggleFacing (facingMode (cells d)) /\
  alerts (run d switch) = alerts d.
Proof.
  intros (s & Hs & Hr & Hsrc & Hreq & Hlen & Ha & seen & Hc & Hseen).
  rewrite (switch_shape d s seen Hs Hr Ha Hc Hseen).
  split; [|split; reflexivity].
  exists (List.length (requested d)). cbn.
  repeat split.
  - rewrite nth_error_app2, Nat.sub_diag by apply Nat.le_refl. reflexivity.
  - rewrite length_app. simpl. lia.
  - exists (Some s). split; [reflexivity|]. rewrite Hlen.
    intros H. injection H as H. lia.
Qed.

Lemma run_app (d : Device) (a b : list Event) :
  run d (a ++ b) = run (run d a) b.
Proof. apply fold_left_app. Qed.

End Streams.

(** X12. Starting from a state where one stream is live and nothing is
    in flight, any number of camera switches that are each left to finish
    (button, grant, start of playback) ends in such a state again: the
    previous stream has been stopped before the next one was asked for,
    exactly one stream is live, it is the one in the [stream] cell and on
    the video element, it was asked for with the current facing mode,
    which has flipped once per switch, and no alert was shown. *)
Theorem patient_switches_keep_one_stream (d : Camera.Device) (n : nat) :
  Camera.settled d ->
  Camera.settled (Camera.run d (Camera.switches n)) /\
  Camera.facingMode (Camera.cells (Camera.run d (Camera.switches n)))
    = Nat.iter n Camera.toggleFacing (Camera.facingMode (Camera.cells d)) /\
  Camera.alerts (Camera.run d (Camera.switches n)) = Camera.alerts d.
Proof.
  revert d. induction n as [|n IH]; intros d H;
    [split; [exact H | split; reflexivity]|].
  cbn [Camera.switches]. rewrite run_app.
  destruct (settled_switch d H) as (H1 & Hf1 & Ha1).
  destruct (IH _ H1) as (H2 & Hf2 & Ha2).
  split; [exact H2|]. split; [|congruence].
  rewrite Hf2, Hf1. clear.
  induction n as [|n IHn]; [reflexivity|]. simpl. now rewrite IHn.
Qed.

Lemma patient_switches_keep_one_stream_witness :
  let first :=
    Camera.run Camera.mounted [Camera.Granted 0; Camera.Played 0] in
  Camera.settled first /\
  Camera.settled (Camera.run first (Camera.switches 3)) /\
  Camera.running (Camera.run first (Camera.switches 3)) = [3%nat] /\
  Camera.facingMode (Camera.cells (Camera.run first (Camera.switches 3)))
    = Camera.user.
Proof.
  cbv zeta.
  assert (H : Camera.settled
                (Camera.run Camera.mounted
                   [Camera.Granted 0; Camera.Played 0])).
  { exists 0%nat. repeat split.
    exists None. split; [reflexivity | discriminate]. }
  split; [exact H|].
  pose proof (patient_switches_keep_one_stream _ 3 H) as (Hs & Hf & _).
  split; [exact Hs|]. split; [reflexivity | exact Hf].
Defined.

(** X13. When the camera is switched from such a state and
    [getUserMedia] rejects, no stream is left running: the previous one
    was stopped before the request.  The [stream] cell still names the
    stopped stream, the facing mode has flipped, one alert is shown and
    nothing is retried. *)
Theorem refused_switch_leaves_no_stream (d : Camera.Device) :
  Camera.settled d ->
  let d' := Camera.run d [Camera.ToggleFacing; Camera.Denied 0] in
  Camera.running d' = [] /\
  Camera.stream (Camera.cells d') = Camera.stream (Camera.cells d) /\
  Camera.facingMode (Camera.cells d')
    = Camera.toggleFacing (Camera.facingMode (Camera.cells d)) /\
  Camera.awaiting d' = [] /\
  Camera.alerts d' = S (Camera.alerts d).
Proof.
  intros (s & Hs & Hr & Hsrc & Hreq & Hlen & Ha & seen & Hc & Hseen).
  cbv zeta. unfold Camera.run. cbn [fold_left].
  rewrite (toggle_shape d s seen Hs Hr Ha Hc Hseen).
  cbn. rewrite Hs. repeat split.
Qed.

Lemma refused_switch_leaves_no_stream_witness :
  let first :=
    Camera.run Camera.mounted [Camera.Granted 0; Camera.Played 0] in
  Camera.running first = [0%nat] /\
  Camera.running
    (Camera.run first [Camera.ToggleFacing; Camera.Denied 0]) = [].
Proof.
  cbv zeta. split; [reflexivity|].
  refine (proj1 (refused_switch_leaves_no_stream
                   (Camera.run Camera.mounted
                      [Camera.Granted 0; Camera.Played 0]) _)).
  exists 0%nat. repeat split.
  exists None. split; [reflexivity | discriminate].
Defined.

(** X14. The cleanup of the camera effect stops the stream that the
    render of the effect saw, not the one in use: from a state where one
    stream is live and nothing is in flight, unmounting the component
    leaves that stream running. *)
Theorem unmount_leaves_stream_running (d : Camera.Device) :
  Camera.settled d ->
  Camera.running (Camera.step d Camera.Unmount) = Camera.running d /\
  Camera.running (Camera.step d Camera.Unmount) <> [].
Proof.
  intros (s & Hs & Hr & Hsrc & Hreq & Hlen & Ha & seen & Hc & Hseen).
  unfold Camera.step, Camera.cleanup. rewrite Hc, Hr. cbn [Camera.running].
  rewrite (stop_other seen s Hseen). split; [reflexivity | discriminate].
Qed.

Lemma unmount_leaves_stream_running_witness :
  let switched :=
    Camera.run Camera.mounted
      ([Camera.Granted 0; Camera.Played 0] ++ Camera.switch) in
  Camera.running switched = [1%nat] /\
  Camera.running (Camera.step switched Camera.Unmount) = [1%nat].
Proof.
  cbv zeta. split; [reflexivity|].
  refine (eq_trans
            (proj1 (unmount_leaves_stream_running
                      (Camera.run Camera.mounted
                         ([Camera.Granted 0; Camera.Played 0]
                            ++ Camera.switch)) _)) eq_refl).
  exists 1%nat. repeat split.
  exists (Some 0%nat). split; [reflexivity | discriminate].
Defined.

(** ** The engine and the hand-over of captures *)

Section HandOver.
Import App Runtime Observe.

Lemma step_keeps_worker (s : Sys) (e : Event) (w : Worker) :
  worker (app s) = Some w -> worker (app (step s e)) = Some w.
Proof.
  intros H. destruct e as [w'|videoRef| |value| |videoRef|k|ms].
  - unfold step. now rewrite H.
  - rewrite click_shape, commit_app. cbv zeta. rewrite H.
    destruct videoRef; exact H.
  - unfold step. rewrite commit_app, perform_eq. exact H.
  - unfold step. rewrite perform_eq. exact H.
  - unfold step. rewrite perform_eq. exact H.
  - unfold step. rewrite commit_app.
    apply (frame_ind (fun s0 => worker (app s0) = Some w)); [|exact H].
    clear. intros s i H.
    destruct (tick_cases videoRef s i)
      as [E | [E | (video & l & _ & _ & _ & _ & E)]]; rewrite E;
      try exact H.
    destruct (seen_worker l); exact H.
  - unfold step. destruct (nth_error (calls s) k) as [c|]; [|exact H].
    rewrite commit_app.
    destruct (owner c); simpl; rewrite perform_eq; simpl;
      destruct (recognize (engine c) (image c)); exact H.
  - unfold step. destruct (ms <? 0); exact H.
Qed.

Lemma paired_app (a b : list Entry) :
  paired a = true -> paired (a ++ b) = paired b.
Proof.
  revert a. fix IH 1. intros [|e rest]; [reflexivity|].
  simpl. destruct (what e); try apply IH.
  destruct rest as [|f rest']; [discriminate|].
  intros H. apply andb_prop in H as [Hf H].
  simpl. rewrite Hf. simpl. apply IH, H.
Qed.

Lemma same_source_refl (a : Source) : same_source a a = true.
Proof. destruct a; simpl; [reflexivity | apply Nat.eqb_refl]. Qed.

Lemma paired_quiet (t : Z) (src : Source) (os : list Output) :
  (forall o, In o os -> forall u, o <> Snapshot u) ->
  paired (map (fun o => {| at_ms := t; source := src; what := o |}) os)
  = true.
Proof.
  induction os as [|o os IH]; intros H; [reflexivity|].
  simpl. destruct o;
    try (apply IH; intros o' Ho'; apply H; now right).
  now destruct (H (Snapshot dataUrl) (or_introl eq_refl) dataUrl).
Qed.

Lemma paired_block (t : Z) (src : Source) (url : string) (o : Output) :
  o = Recognize (Some url) \/ o = Alert EngineNotReady ->
  paired [{| at_ms := t; source := src; what := Snapshot url |};
          {| at_ms := t; source := src; what := o |}] = true.
Proof.
  intros [-> | ->]; simpl; unfold hands_on; simpl;
    now rewrite same_source_refl, Z.eqb_refl, ?String.eqb_refl.
Qed.

Lemma tick_paired (videoRef : option Video) (s : Sys) (i : nat) :
  paired (trace s) = true -> paired (trace (tick videoRef s i)) = true.
Proof.
  intros H.
  destruct (tick_cases videoRef s i)
    as [E | [E | (video & l & _ & _ & _ & _ & E)]]; rewrite E;
    try exact H.
  destruct (seen_worker l); cbn [trace]; rewrite (paired_app _ _ H);
    apply paired_block; [now left | now right].
Qed.

Lemma step_paired (s : Sys) (e : Event) :
  paired (trace s) = true -> paired (trace (step s e)) = true.
Proof.
  intros H. destruct e as [w|videoRef| |value| |videoRef|k|ms].
  - unfold step. destruct (worker (app s)); [exact H|].
    rewrite commit_trace, perform_eq. cbn. now rewrite app_nil_r.
  - rewrite click_shape, commit_trace. cbv zeta.
    destruct (worker (app s)), videoRef as [video|]; cbn [trace];
      rewrite (paired_app _ _ H); cbn [map app option_map].
    + apply paired_block. now left.
    + reflexivity.
    + apply paired_block. now right.
    + reflexivity.
  - unfold step. rewrite commit_trace, perform_eq. cbn.
    now rewrite app_nil_r.
  - unfold step. rewrite perform_eq. cbn. now rewrite app_nil_r.
  - unfold step. rewrite perform_eq. cbn. now rewrite app_nil_r.
  - unfold step. rewrite commit_trace.
    apply (frame_ind (fun s0 => paired (trace s0) = true)); [|exact H].
    intros s0 i. apply tick_paired.
  - unfold step. destruct (nth_error (calls s) k) as [c|]; [|exact H].
    rewrite commit_trace.
    assert (H1 : paired
                   (trace (snd (perform (owner c)
                            (runOcr_resume (recognize (engine c) (image c)))
                            (with_calls (remove_nth k (calls s)) s))))
                 = true).
    { rewrite perform_eq. cbn [snd trace with_calls].
      rewrite (paired_app _ _ H). apply paired_quiet.
      intros o Ho u. destruct (recognize (engine c) (image c));
        simpl in Ho; intuition (subst; discriminate). }
    destruct (owner c); exact H1.
  - unfold step. destruct (ms <? 0); exact H.
Qed.

End HandOver.

(** X15. The engine is set once and kept: from the moment a worker is in
    place, no event of the page replaces or removes it. *)
Theorem worker_is_kept
        (s : Runtime.Sys) (events : list Runtime.Event) (w : App.Worker) :
  App.worker (Runtime.app s) = Some w ->
  App.worker (Runtime.app (Runtime.run s events)) = Some w.
Proof.
  intros H.
  apply (run_ind (fun s0 => App.worker (Runtime.app s0) = Some w)
                 (fun s0 e => step_keeps_worker s0 e w) events s H).
Qed.

Lemma worker_is_kept_witness :
  let ready := Runtime.run Runtime.mounted
                 [Runtime.WorkerReady Scenario.hello] in
  App.worker (Runtime.app ready) = Some Scenario.hello /\
  App.worker
    (Runtime.app
       (Runtime.run ready
          [Runtime.WorkerReady Scenario.picky;
           Runtime.CaptureClick (Some Scenario.page);
           Runtime.RecognizeSettles 0])) = Some Scenario.hello.
Proof.
  cbv zeta. split; [reflexivity|].
  exact (worker_is_kept
           (Runtime.run Runtime.mounted [Runtime.WorkerReady Scenario.hello])
           [Runtime.WorkerReady Scenario.picky;
            Runtime.CaptureClick (Some Scenario.page);
            Runtime.RecognizeSettles 0]
           Scenario.hello eq_refl).
Defined.

(** X16. In every session, each capture, manual or automatic, is handed
    on at once: the entry that follows it in the trace comes from the
    same requester at the same instant and is either the call of the
    engine on the still just taken or the engine-not-ready notice. *)
Theorem every_capture_is_handed_on (events : list Runtime.Event) :
  Observe.paired (Runtime.trace (Runtime.run Runtime.mounted events)) = true.
Proof.
  apply (run_ind (fun s => Observe.paired (Runtime.trace s) = true)
                 step_paired events Runtime.mounted).
  reflexivity.
Qed.

(** ** When a frame callback captures *)

(** X17. For a feed with current data whose width is from 2 to 4096 and
    whose height is from 5 to 4096, a frame callback samples the centre
    box (60% by 20% of the frame, centred) and captures exactly when the
    variance of that box exceeds 500 and the closure saw [processing =
    false]. *)
Theorem frame_callback_captures_exactly_when
        (p : bool) (w : option App.Worker) (video : App.Video)
        (world : App.World) :
  2 <= App.readyState video ->
  2 <= App.videoWidth video <= 4096 ->
  5 <= App.videoHeight video <= 4096 ->
  let boxW := 3 * App.videoWidth video / 5 in
  let boxH := App.videoHeight video / 5 in
  let boxX := (App.videoWidth video - boxW) / 2 in
  let boxY := (App.videoHeight video - boxH) / 2 in
  let variance :=
    Sampler.variance (App.imageData video boxX boxY boxW boxH) boxW boxH in
  (exists dataUrl pending,
      fst (App.check p w (Some video) world) = App.Fired dataUrl pending)
  <-> (Num.gt variance 500 = true /\ p = false).
Proof.
  intros Hr Hw Hh.
  destruct (box_agrees_spec (App.videoWidth video) ltac:(lia))
    as (HW & _ & HX & _).
  destruct (box_agrees_spec (App.videoHeight video) ltac:(lia))
    as (_ & HH & _ & HY).
  cbv zeta. unfold App.check.
  replace (App.readyState video <? 2) with false
    by (symmetry; apply Z.ltb_ge; lia).
  replace (App.videoWidth video =? 0) with false
    by (symmetry; apply Z.eqb_neq; lia).
  replace (App.videoHeight video =? 0) with false
    by (symmetry; apply Z.eqb_neq; lia).
  replace (Sampler.boxW (App.videoWidth video) =? 0) with false
    by (symmetry; apply Z.eqb_neq; rewrite HW;
        Z.div_mod_to_equations; lia).
  replace (Sampler.boxH (App.videoHeight video) =? 0) with false
    by (symmetry; apply Z.eqb_neq; rewrite HH;
        Z.div_mod_to_equations; lia).
  cbn [orb]. rewrite HX, HY, HW, HH.
  unfold Sampler.shouldTrigger, Sampler.varianceThreshold.
  destruct (Num.gt _ 500); destruct p; cbn [andb negb]; split.
  all: try (intros (d & pend & H); discriminate H).
  all: try (intros [H1 H2]; discriminate).
  - intros _. split; reflexivity.
  - intros _. destruct w; do 2 eexists; reflexivity.
Qed.

Lemma frame_callback_captures_exactly_when_witness :
  2 <= App.readyState Scenario.page /\
  2 <= App.videoWidth Scenario.page <= 4096 /\
  5 <= App.videoHeight Scenario.page <= 4096 /\
  exists dataUrl pending,
    fst (App.check false None (Some Scenario.page)
           {| App.st := App.initial; App.out := [] |})
    = App.Fired dataUrl pending.
Proof.
  split; [simpl; lia|]. split; [simpl; lia|]. split; [simpl; lia|].
  apply (frame_callback_captures_exactly_when false None Scenario.page
           {| App.st := App.initial; App.out := [] |});
    [simpl; lia | simpl; lia | simpl; lia |].
  split; reflexivity.
Defined.

(* ================================================================== *)
(** * Recognitions that overlap *)

Section Settlement.
Import App Runtime Observe.

(** The settlement of a pending call, whatever else is pending. *)
Lemma settle_shape (s : Sys) (k : nat) (c : Call) :
  nth_error (calls s) k = Some c ->
  step s (RecognizeSettles k) =
    commit (app s)
      (let s1 :=
         match recognize (engine c) (image c) with
         | Recognized text confidence =>
             {| app := set_processing false (set_ocrText text (app s));
                now := now s; loops := loops s; effect := effect s;
                calls := remove_nth k (calls s);
                trace := trace s ++
                         [{| at_ms := now s; source := owner c;
                             what := ConsoleLog confidence |}] |}
         | Rejected =>
             {| app := set_processing false (app s);
                now := now s; loops := loops s; effect := effect s;
                calls := remove_nth k (calls s);
                trace := trace s ++
                         [{| at_ms := now s; source := owner c;
                             what := ConsoleError |};
                          {| at_ms := now s; source := owner c;
                             what := Alert OcrError |}] |}
         end in
       match owner c with
       | Manual => s1
       | Auto i =>
           with_loops (set_phase i (Cooldown (now s1 + 1500)) (loops s1)) s1
       end).
Proof.
  intros Hk. unfold step. rewrite Hk, perform_eq. cbn [snd].
  destruct (recognize (engine c) (image c)); reflexivity.
Qed.

Lemma settle_app (s : Sys) (k : nat) (c : Call) :
  nth_error (calls s) k = Some c ->
  app (step s (RecognizeSettles k)) =
    match recognize (engine c) (image c) with
    | Recognized text _ => set_processing false (set_ocrText text (app s))
    | Rejected => set_processing false (app s)
    end.
Proof.
  intros Hk. rewrite (settle_shape s k c Hk), commit_app. cbv zeta.
  destruct (recognize (engine c) (image c)), (owner c); reflexivity.
Qed.

Lemma tick_text (videoRef : option Video) (s : Sys) (i : nat) :
  ocrText (app (tick videoRef s i)) = ocrText (app s) \/
  ocrText (app (tick videoRef s i)) = ""%string.
Proof.
  destruct (tick_cases videoRef s i)
    as [E | [E | (video & l & _ & _ & _ & _ & E)]]; rewrite E;
    try (now left).
  destruct (seen_worker l); [now right | now left].
Qed.

Lemma frame_text (videoRef : option Video) (ids : list nat) :
  forall s,
    ocrText (app (fold_left (tick videoRef) ids s)) = ocrText (app s) \/
    ocrText (app (fold_left (tick videoRef) ids s)) = ""%string.
Proof.
  induction ids as [|i ids IH]; intros s; [now left|].
  simpl. destruct (IH (tick videoRef s i)) as [E | E]; [|now right].
  rewrite E. apply tick_text.
Qed.

(** After one event the text is what it was, or empty, or the text of a
    recognition that this event settled. *)
Lemma step_text (s : Sys) (e : Event) :
  ocrText (app (step s e)) = ocrText (app s) \/
  ocrText (app (step s e)) = ""%string \/
  In (ocrText (app (step s e))) (settled_texts s [e]).
Proof.
  destruct e as [w|videoRef| |value| |videoRef|k|ms].
  - unfold step. destruct (worker (app s)); [now left|].
    rewrite commit_app, perform_eq. now left.
  - rewrite click_shape, commit_app. cbv zeta.
    destruct (worker (app s)); [now right; left|].
    left. now destruct videoRef.
  - unfold step. rewrite commit_app, perform_eq. now left.
  - unfold step. rewrite perform_eq. now left.
  - unfold step. rewrite perform_eq. now right; left.
  - unfold step. rewrite commit_app.
    destruct (frame_text videoRef (pending_from 0 (loops s)) s) as [E | E];
      [now left | now right; left].
  - destruct (nth_error (calls s) k) as [c|] eqn:Hk.
    + rewrite (settle_app s k c Hk). simpl. rewrite Hk.
      destruct (recognize (engine c) (image c));
        [right; right; now left | now left].
    + unfold step. rewrite Hk. now left.
  - unfold step. destruct (ms <? 0); now left.
Qed.

Lemma run_text (events : list Event) :
  forall s,
    ocrText (app (run s events)) = ocrText (app s) \/
    ocrText (app (run s events)) = ""%string \/
    In (ocrText (app (run s events))) (settled_texts s events).
Proof.
  induction events as [|e events IH]; intros s; [now left|].
  cbn [run fold_left settled_texts].
  fold (run (step s e) events).
  destruct (IH (step s e)) as [E | [E | E]].
  - rewrite E. destruct (step_text s e) as [F | [F | F]];
      [now left | now right; left |].
    right; right. apply in_or_app. left.
    cbn [settled_texts] in F. now rewrite app_nil_r in F.
  - now right; left.
  - right; right. apply in_or_app. now right.
Qed.

End Settlement.

(** ** C5: a recognition that fails *)

(** C5 (as stated -- refuted). Two clicks overlap: the recognition of
    the first still settles with HELLO while the second is pending, then
    the second fails. After the failure the text is HELLO, not empty. *)
Lemma failed_recognition_keeps_other_text :
  let pending :=
    Runtime.run Runtime.mounted Scenario.overlapping_clicks in
  map (fun c => App.recognize (Runtime.engine c) (Runtime.image c))
      (Runtime.calls pending) = [App.Rejected] /\
  App.ocrText
    (Runtime.app (Runtime.step pending (Runtime.RecognizeSettles 0)))
    = "HELLO"%string /\
  App.processing
    (Runtime.app (Runtime.step pending (Runtime.RecognizeSettles 0)))
    = false.
Proof. vm_compute. repeat split. Qed.

(** C5 (amended). When a pending recognition call fails, in whatever
    state the page has reached: [processing] becomes false and the other
    cells stay as they are, so the failing call writes no text, and the
    text is empty if [processing] was still set; the error is logged and
    the OCR-error notice shown, by the requester of the call; the call
    leaves the pending ones and no call is added.  A click afterwards,
    with a worker in place, adds its own call, and when that call
    settles with a text, whatever happened in between, the text is
    stored and [processing] is false. *)
Theorem failed_recognition_settles
        (events : list Runtime.Event) (k : nat) (c : Runtime.Call) :
  let sys := Runtime.run Runtime.mounted events in
  nth_error (Runtime.calls sys) k = Some c ->
  App.recognize (Runtime.engine c) (Runtime.image c) = App.Rejected ->
  let failed := Runtime.step sys (Runtime.RecognizeSettles k) in
  Runtime.app failed = App.set_processing false (Runtime.app sys) /\
  (App.processing (Runtime.app sys) = true ->
   App.ocrText (Runtime.app failed) = ""%string) /\
  Runtime.trace failed =
    Runtime.trace sys ++
    [{| Runtime.at_ms := Runtime.now sys; Runtime.source := Runtime.owner c;
        Runtime.what := App.ConsoleError |};
     {| Runtime.at_ms := Runtime.now sys; Runtime.source := Runtime.owner c;
        Runtime.what := App.Alert App.OcrError |}] /\
  Runtime.calls failed = Runtime.remove_nth k (Runtime.calls sys) /\
  forall (video : App.Video) (w : App.Worker),
    App.worker (Runtime.app failed) = Some w ->
    let mine := {| Runtime.owner := Runtime.Manual; Runtime.engine := w;
                   Runtime.image := Some (App.toDataURL video) |} in
    Runtime.calls (Runtime.step failed (Runtime.CaptureClick (Some video)))
      = Runtime.calls failed ++ [mine] /\
    forall (later : Runtime.Sys) (j : nat) (text : string)
           (confidence : float),
      nth_error (Runtime.calls later) j = Some mine ->
      App.recognize w (Some (App.toDataURL video))
        = App.Recognized text confidence ->
      App.ocrText
        (Runtime.app (Runtime.step later (Runtime.RecognizeSettles j)))
        = text /\
      App.processing
        (Runtime.app (Runtime.step later (Runtime.RecognizeSettles j)))
        = false.
Proof.
  intros sys Hk Hfail failed.
  assert (Happ : Runtime.app failed
                 = App.set_processing false (Runtime.app sys)).
  { subst failed. now rewrite (settle_app sys k c Hk), Hfail. }
  split; [exact Happ|]. split; [|split; [|split]].
  - intros Hp. rewrite Happ. cbn.
    exact (run_keeps_text_empty events Runtime.mounted
             (fun _ => eq_refl) Hp).
  - subst failed. rewrite (settle_shape sys k c Hk), commit_trace, Hfail.
    cbv zeta. destruct (Runtime.owner c); reflexivity.
  - subst failed. rewrite (settle_shape sys k c Hk), commit_calls, Hfail.
    cbv zeta. destruct (Runtime.owner c); reflexivity.
  - intros video w Hw mine. split.
    + rewrite click_shape, commit_calls. cbv zeta. now rewrite Hw.
    + intros later j text confidence Hj Hok.
      rewrite (settle_app later j mine Hj). subst mine. cbn.
      rewrite Hok. split; reflexivity.
Qed.

Lemma failed_recognition_settles_witness :
  let sys := Runtime.run Runtime.mounted Scenario.one_blurred_click in
  let failed := Runtime.step sys (Runtime.RecognizeSettles 0) in
  let next := Runtime.step failed (Runtime.CaptureClick (Some Scenario.page)) in
  map (fun c => App.recognize (Runtime.engine c) (Runtime.image c))
      (Runtime.calls sys) = [App.Rejected] /\
  App.processing (Runtime.app failed) = false /\
  App.ocrText (Runtime.app failed) = ""%string /\
  Runtime.calls failed = [] /\
  App.ocrText (Runtime.app (Runtime.step next (Runtime.RecognizeSettles 0)))
    = "HELLO"%string /\
  App.processing (Runtime.app (Runtime.step next (Runtime.RecognizeSettles 0)))
    = false.
Proof.
  cbv zeta.
  pose proof (failed_recognition_settles Scenario.one_blurred_click 0
                {| Runtime.owner := Runtime.Manual;
                   Runtime.engine := Scenario.picky;
                   Runtime.image := Some (App.toDataURL Scenario.blur) |}
                eq_refl eq_refl) as H.
  cbv zeta in H. destruct H as (Happ & Htext & _ & Hcalls & Hnext).
  split; [reflexivity|]. split; [now rewrite Happ|].
  split; [exact (Htext eq_refl)|]. split; [exact Hcalls|].
  destruct (Hnext Scenario.page Scenario.picky eq_refl) as (_ & Hlater).
  exact (Hlater
           (Runtime.step
              (Runtime.step
                 (Runtime.run Runtime.mounted Scenario.one_blurred_click)
                 (Runtime.RecognizeSettles 0))
              (Runtime.CaptureClick (Some Scenario.page)))
           0%nat "HELLO"%string 0.9%float eq_refl eq_refl).
Defined.

(** ** C10: the text when a recognition begins *)

(** C10 (as stated -- refuted). Two clicks overlap. When the first
    recognition has settled, the second is still pending and the text is
    HELLO, not empty; and when the second then fails, the text of the
    earlier capture is still there. *)
Lemma text_shown_while_other_recognition_pending :
  let pending :=
    Runtime.run Runtime.mounted Scenario.overlapping_clicks in
  map Runtime.image (Runtime.calls pending)
    = [Some "data:image/jpeg;base64,BLUR"%string] /\
  App.ocrText (Runtime.app pending) = "HELLO"%string /\
  App.ocrText
    (Runtime.app (Runtime.run pending [Runtime.RecognizeSettles 0]))
    = "HELLO"%string /\
  Runtime.calls (Runtime.run pending [Runtime.RecognizeSettles 0]) = [].
Proof. vm_compute. repeat split. Qed.

(** C10 (amended). Every run of [runOcr] with a worker sets
    [processing] and empties the text before the engine is called;
    therefore, in every state the page can reach, the text is empty
    whenever [processing] is set, and once a recognition has begun no
    text from before is left: from a state with an empty text, whatever
    follows, the text is empty or is the text of a recognition that
    settled afterwards.  For a run of [runOcr] with nothing in between,
    the text at the end is the recognized one on success and empty on
    failure. *)
Theorem text_cleared_when_recognition_begins :
  (forall (s : App.State) (w : App.Worker) (dataUrl : option string),
      App.exec (App.runOcr_begin (Some w) dataUrl) s =
        {| App.st := App.set_ocrText "" (App.set_processing true s);
           App.out := [App.Recognize dataUrl] |}) /\
  (forall events : list Runtime.Event,
      App.processing (Runtime.app (Runtime.run Runtime.mounted events)) = false
      \/ App.ocrText (Runtime.app (Runtime.run Runtime.mounted events))
         = ""%string) /\
  (forall (begun : Runtime.Sys) (events : list Runtime.Event),
      App.ocrText (Runtime.app begun) = ""%string ->
      App.ocrText (Runtime.app (Runtime.run begun events)) = ""%string \/
      In (App.ocrText (Runtime.app (Runtime.run begun events)))
         (Observe.settled_texts begun events)) /\
  (forall (s : App.State) (w : App.Worker) (dataUrl : option string),
      App.ocrText (App.st (App.exec (App.runOcr (Some w) dataUrl) s)) =
        match App.recognize w dataUrl with
        | App.Recognized text _ => text
        | App.Rejected => ""%string
        end).
Proof.
  split; [reflexivity|]. split; [|split].
  - intros events.
    pose proof (run_keeps_text_empty events Runtime.mounted) as H.
    unfold App.text_empty_while_processing in H.
    specialize (H (fun _ => eq_refl)).
    destruct (App.processing (Runtime.app (Runtime.run Runtime.mounted events)));
      [right; apply H; reflexivity | left; reflexivity].
  - intros begun events Hempty.
    destruct (run_text events begun) as [E | [E | E]];
      [left; congruence | now left | now right].
  - intros s w dataUrl. rewrite runOcr_unfold.
    destruct (App.recognize w dataUrl); reflexivity.
Qed.

Lemma text_cleared_when_recognition_begins_witness :
  let begun :=
    Runtime.run Runtime.mounted
      [Runtime.WorkerReady Scenario.picky;
       Runtime.CaptureClick (Some Scenario.page)] in
  App.ocrText (Runtime.app begun) = ""%string /\
  (App.ocrText (Runtime.app (Runtime.run begun [Runtime.RecognizeSettles 0]))
     = ""%string \/
   In (App.ocrText
         (Runtime.app (Runtime.run begun [Runtime.RecognizeSettles 0])))
      (Observe.settled_texts begun [Runtime.RecognizeSettles 0])) /\
  Observe.settled_texts begun [Runtime.RecognizeSettles 0]
    = ["HELLO"%string].
Proof.
  cbv zeta. split; [reflexivity|]. split; [|reflexivity].
  exact (proj1 (proj2 (proj2 text_cleared_when_recognition_begins))
           (Runtime.run Runtime.mounted
              [Runtime.WorkerReady Scenario.picky;
               Runtime.CaptureClick (Some Scenario.page)])
           [Runtime.RecognizeSettles 0] eq_refl).
Defined.
